(** * Valerix: the order-placement saga

    A shallow embedding of the two services of the repository,

    - [services/inventory-service/src/index.ts] (module [Inventory]) and
    - [services/order-service/src/index.ts] (module [OrderService]),

    followed by the properties of the saga: idempotent deduction, the
    atomic decrement-plus-log transaction, non-negative stock, the
    classification of timeouts and the finality of terminal orders.

    Modelling conventions.
    - The Prisma tables are finite maps keyed by the row identifier
      ([gmap string _]); the idempotency log, whose rows carry nothing
      but the unique [orderId], is a finite set ([gset string]).
    - Request bodies are typed: an identifier is an optional string, a
      quantity an optional integer.  [None] is a key missing from the
      JSON body.  JavaScript's [!x] is then "missing, empty string or
      zero".
    - [stock] and [quantity] are mathematical integers: the width of the
      database columns is declared in the Prisma schema, which is not
      part of the sources.
    - Time is counted in milliseconds.  A handler reply records how long
      the handler slept before it answered. *)

From stdpp Require Import gmap strings list sorting.

Local Open Scope string_scope.
Local Open Scope Z_scope.

(** ** Inventory service *)

Module Inventory.

(** A row of the [product] table. *)
Record Product := mkProduct {
  id : string;
  name : string;
  stock : Z
}.

(** The database of the service: the [product] table and the
    [idempotencyLog] table. *)
Record Db := mkDb {
  product : gmap string Product;
  idempotencyLog : gset string
}.

(** The JSON body of [POST /inventory/deduct]. *)
Record DeductBody := mkDeductBody {
  productId : option string;
  quantity : option Z;
  orderId : option string
}.

(** The JSON bodies the handler sends: [{ error }] and
    [{ message, success: true }]. *)
Inductive Payload :=
| ErrorBody (error : string)
| SuccessBody (message : string).

(** A reply of the handler: status code, body, and the time in
    milliseconds the handler waited before sending it. *)
Record Reply := mkReply {
  status : Z;
  body : Payload;
  delay : Z
}.

(** The row [p] after [data: { stock }] was written to it. *)
Definition with_stock (p : Product) (s : Z) : Product :=
  mkProduct (id p) (name p) s.

(** A thrown JavaScript [Error]. *)
Record Error := mkError { message : string }.

(** *** Interactive transactions

    The callback of [prisma.$transaction] works on the transaction's own
    view of the database and may throw half-way.  A computation of type
    [Tx A] maps the view it starts from to the view it leaves behind and
    either a thrown error or a value. *)

Definition Tx (A : Type) : Type := Db → Db * (Error + A).

#[global] Instance tx_ret : MRet Tx := λ A a db, (db, inr a).

#[global] Instance tx_bind : MBind Tx := λ A B k m db,
  match m db with
  | (db', inr a) => k a db'
  | (db', inl e) => (db', inl e)
  end.

Definition throw {A} (e : Error) : Tx A := λ db, (db, inl e).

(** [prisma.$transaction(callback)]: commit the view the callback leaves
    behind when it returns, restore the snapshot when it throws; the
    error is rethrown to the caller. *)
Definition transaction {A} (callback : Tx A) (db : Db) : Db * (Error + A) :=
  match callback db with
  | (db', inr a) => (db', inr a)
  | (_, inl e) => (db, inl e)
  end.

(** [tx.product.findUnique({ where: { id } })] *)
Definition product_findUnique (pid : string) : Tx (option Product) :=
  λ db, (db, inr (product db !! pid)).

(** Prisma's error for an update whose [where] matches no row. *)
Definition record_not_found : Error :=
  mkError "Record to update not found.".

(** [tx.product.update({ where: { id }, data: { stock } })] *)
Definition product_update (pid : string) (new_stock : Z) : Tx unit :=
  λ db, match product db !! pid with
        | Some p =>
            (mkDb (<[pid := with_stock p new_stock]> (product db))
                  (idempotencyLog db), inr tt)
        | None => (db, inl record_not_found)
        end.

(** Prisma's error for a violated unique constraint.  [orderId] is a
    unique column: the handler looks rows up by it with [findUnique].
    The message Prisma builds is longer and names the invocation; only
    its last line is kept here, and no statement below depends on the
    text. *)
Definition unique_constraint_failed : Error :=
  mkError "Unique constraint failed on the fields: (`orderId`)".

(** [tx.idempotencyLog.create({ data: { orderId } })] *)
Definition idempotencyLog_create (oid : string) : Tx unit :=
  λ db, if decide (oid ∈ idempotencyLog db)
        then (db, inl unique_constraint_failed)
        else (mkDb (product db) ({[oid]} ∪ idempotencyLog db), inr tt).

(** The callback of the transaction in [POST /inventory/deduct]. *)
Definition deduct_callback (pid : string) (q : Z) (oid : string) : Tx unit :=
  found ← product_findUnique pid;
  match found with
  | None => throw (mkError "Insufficient stock or product not found")
  | Some p =>
      if stock p <? q
      then throw (mkError "Insufficient stock or product not found")
      else (product_update pid (stock p - q);;
            idempotencyLog_create oid)
  end.

(** *** The Gremlin *)

Definition GREMLIN_QUANTITY : Z := 13.
Definition GREMLIN_DELAY : Z := 5000.

(** [if (quantity === 13) await new Promise(r => setTimeout(r, 5000))] *)
Definition gremlin (q : Z) : Z :=
  if q =? GREMLIN_QUANTITY then GREMLIN_DELAY else 0.

(** *** [POST /inventory/deduct] *)

Definition missing_fields : Reply :=
  mkReply 400 (ErrorBody "Missing productId, quantity, or orderId") 0.

Definition already_deducted : Reply :=
  mkReply 200 (SuccessBody "Stock already deducted (Idempotent)") 0.

Definition deducted (q : Z) : Reply :=
  mkReply 200 (SuccessBody "Stock deducted") (gremlin q).

Definition rejected (e : Error) : Reply :=
  mkReply 400 (ErrorBody (message e)) 0.

Definition deduct (req : DeductBody) (db : Db) : Db * Reply :=
  match productId req, quantity req, orderId req with
  | Some pid, Some q, Some oid =>
      if bool_decide (pid = "") || (q =? 0) || bool_decide (oid = "")
      then (db, missing_fields)
      else
        (* 1. Check Idempotency *)
        if decide (oid ∈ idempotencyLog db)
        then (db, already_deducted)
        else
          (* 2. Transaction: Deduct Stock + Log Idempotency *)
          match transaction (deduct_callback pid q oid) db with
          | (db', inr _) =>
              (* 3. Gremlin Latency *)
              (db', deducted q)
          | (db', inl e) => (db', rejected e)
          end
  | _, _, _ => (db, missing_fields)
  end.

(** Requests served one after the other. *)
Fixpoint serve (reqs : list DeductBody) (db : Db) : Db * list Reply :=
  match reqs with
  | [] => (db, [])
  | req :: reqs' =>
      let '(db1, r) := deduct req db in
      let '(db2, rs) := serve reqs' db1 in
      (db2, r :: rs)
  end.

(** *** Handlers in flight

    The handler awaits the database twice, for the look-up in the
    idempotency log and for the transaction, and other handlers run in
    between.  A handler in flight is at one of three stages; the
    transaction is one step. *)
Inductive Stage :=
| Arrived (req : DeductBody)
| Checked (pid : string) (q : Z) (oid : string)
| Answered (r : Reply).

Definition advance (s : Stage) (db : Db) : Db * Stage :=
  match s with
  | Arrived req =>
      match productId req, quantity req, orderId req with
      | Some pid, Some q, Some oid =>
          if bool_decide (pid = "") || (q =? 0) || bool_decide (oid = "")
          then (db, Answered missing_fields)
          else if decide (oid ∈ idempotencyLog db)
          then (db, Answered already_deducted)
          else (db, Checked pid q oid)
      | _, _, _ => (db, Answered missing_fields)
      end
  | Checked pid q oid =>
      match transaction (deduct_callback pid q oid) db with
      | (db', inr _) => (db', Answered (deducted q))
      | (db', inl e) => (db', Answered (rejected e))
      end
  | Answered r => (db, Answered r)
  end.

(** The identifier a handler in flight works for. *)
Definition stage_orderId (s : Stage) : option string :=
  match s with
  | Arrived req => orderId req
  | Checked _ _ oid => Some oid
  | Answered _ => None
  end.

(** A pool of handlers in flight; at each turn the handler at the given
    position takes its next step. *)
Fixpoint interleave (turns : list nat) (pool : list Stage) (db : Db)
  : list Stage * Db :=
  match turns with
  | [] => (pool, db)
  | i :: turns' =>
      match pool !! i with
      | Some s =>
          let '(db', s') := advance s db in
          interleave turns' (<[i := s']> pool) db'
      | None => interleave turns' pool db
      end
  end.

(** *** [seedProducts]

    [createMany] lets the database generate the identifiers of the four
    rows; they are an argument here.  The insert is one statement: when
    it fails (identifiers that collide) nothing is inserted, and the
    function catches and logs the error. *)
Definition seed_rows (ids : string * string * string * string)
  : list (string * Product) :=
  let '(i1, i2, i3, i4) := ids in
  [ (i1, mkProduct i1 "Quantum Processor" 100);
    (i2, mkProduct i2 "Neural Interface" 50);
    (i3, mkProduct i3 "Flux Capacitor" 20);
    (i4, mkProduct i4 "Hyperdrive Unit" 10) ].

Definition seedProducts (ids : string * string * string * string)
    (db : Db) : Db :=
  if bool_decide (size (product db) = 0%nat)
  then
    if bool_decide (NoDup (seed_rows ids).*1)
    then mkDb (list_to_map (seed_rows ids)) (idempotencyLog db)
    else db
  else db.

(** *** Vocabulary of the properties *)

(** The database once the decrement and the log entry are both in. *)
Definition committed (pid : string) (p : Product) (q : Z) (oid : string)
    (db : Db) : Db :=
  mkDb (<[pid := with_stock p (stock p - q)]> (product db))
       ({[oid]} ∪ idempotencyLog db).

Definition insufficient : Error :=
  mkError "Insufficient stock or product not found".

(** A body that passes the check for missing fields. *)
Definition accepted (req : DeductBody) : Prop :=
  match productId req, quantity req, orderId req with
  | Some pid, Some q, Some oid => pid ≠ "" ∧ q ≠ 0 ∧ oid ≠ ""
  | _, _, _ => False
  end.

#[global] Instance accepted_dec req : Decision (accepted req).
Proof.
  unfold accepted.
  destruct (productId req), (quantity req), (orderId req); apply _.
Defined.

Definition stock_nonneg (db : Db) : Prop :=
  ∀ pid p, product db !! pid = Some p → 0 ≤ stock p.

(** Every outcome of the handler. *)
Inductive Outcome (req : DeductBody) (db : Db) : Db → Reply → Prop :=
| Invalid : ¬ accepted req → Outcome req db db missing_fields
| Replayed pid q oid :
    req = mkDeductBody (Some pid) (Some q) (Some oid) →
    oid ∈ idempotencyLog db →
    Outcome req db db already_deducted
| Refused pid q oid :
    req = mkDeductBody (Some pid) (Some q) (Some oid) →
    oid ∉ idempotencyLog db →
    (product db !! pid = None
     ∨ ∃ p, product db !! pid = Some p ∧ stock p < q) →
    Outcome req db db (rejected insufficient)
| Committed pid q oid p :
    req = mkDeductBody (Some pid) (Some q) (Some oid) →
    oid ∉ idempotencyLog db →
    product db !! pid = Some p → q ≤ stock p →
    Outcome req db (committed pid p q oid db) (deducted q).

(** A database with one product, of stock 100. *)
Definition db_100 : Db :=
  mkDb {[ "p1" := mkProduct "p1" "Quantum Processor" 100 ]} ∅.

(** The statement that a missing product and a short stock are told
    apart by the reply. *)
Definition distinct_failure_causes : Prop :=
  ∀ pid q oid (db_missing db_short : Db) p,
    pid ≠ "" → q ≠ 0 → oid ≠ "" →
    oid ∉ idempotencyLog db_missing → oid ∉ idempotencyLog db_short →
    product db_missing !! pid = None →
    product db_short !! pid = Some p → stock p < q →
    (deduct (mkDeductBody (Some pid) (Some q) (Some oid)) db_missing).2
    ≠ (deduct (mkDeductBody (Some pid) (Some q) (Some oid)) db_short).2.

End Inventory.

(** ** Order service *)

Module OrderService.

Inductive OrderStatus := PENDING | CONFIRMED | FAILED.

#[global] Instance OrderStatus_eq_dec : EqDecision OrderStatus.
Proof. solve_decision. Defined.

(** A row of the [order] table. *)
Record Order := mkOrder {
  id : string;
  productId : string;
  quantity : Z;
  status : OrderStatus;
  createdAt : Z
}.

(** The row [o] after [data: { status }] was written to it. *)
Definition with_status (o : Order) (s : OrderStatus) : Order :=
  mkOrder (id o) (productId o) (quantity o) s (createdAt o).

(** A write statement issued to the [order] table. *)
Inductive Write :=
| Created (o : Order)
| Updated (oid : string) (s : OrderStatus).

(** The [order] table, together with the journal of the write
    statements that were executed on it, newest first.  The journal is
    bookkeeping of the model: no code reads it. *)
Record Store := mkStore {
  order : gmap string Order;
  journal : list Write
}.

(** The state of the whole system: the database of each service. *)
Record World := mkWorld {
  orders : Store;
  inventory : Inventory.Db
}.

(** The JSON body of [POST /orders]. *)
Record OrderRequest := mkOrderRequest {
  req_productId : option string;
  req_quantity : option Z
}.

(** What the environment decides while one order is placed: the
    identifier and creation time the database gives the new row, and the
    time the call to the inventory service spends outside the handler's
    own sleep. *)
Record Env := mkEnv {
  new_id : string;
  now : Z;
  latency : Z
}.

(** The JSON bodies the service sends. *)
Inductive Payload :=
| ErrorBody (error : string)
| OrderBody (o : Order)
| FailedBody (error : string) (orderId : string) (status : OrderStatus)
| OrdersBody (os : list Order).

Record Reply := mkReply {
  code : Z;
  body : Payload
}.

(** [prisma.order.create]: throws ([None]) when the identifier is
    taken. *)
Definition order_create (o : Order) (st : Store) : option Store :=
  match order st !! id o with
  | Some _ => None
  | None => Some (mkStore (<[id o := o]> (order st)) (Created o :: journal st))
  end.

(** [prisma.order.update({ where: { id }, data: { status } })]: returns
    the updated row, throws ([None]) when there is no such row. *)
Definition order_update (oid : string) (s : OrderStatus) (st : Store)
  : option (Store * Order) :=
  match order st !! oid with
  | Some o =>
      let o' := with_status o s in
      Some (mkStore (<[oid := o']> (order st)) (Updated oid s :: journal st), o')
  | None => None
  end.

(** *** The call to the inventory service *)

(** What [await axios.post(...)] yields: a response, or a thrown error,
    of which the handler reads only [code]. *)
Inductive AxiosResult :=
| AxiosResponse (status : Z) (data : Inventory.Payload)
| AxiosError (code : option string).

Definition TIMEOUT : Z := 2000.

(** [axios.post(url, data, { timeout })] for a reply that arrives after
    [took] milliseconds.  Once [timeout] milliseconds have passed the
    request is aborted with [ECONNABORTED]; a reply whose status is not
    2xx is thrown as an error.  The request and the reply are always
    delivered: a connection that is refused or lost is not modelled. *)
Definition axios_post (timeout took : Z) (r : Inventory.Reply) : AxiosResult :=
  if timeout <=? took then AxiosError (Some "ECONNABORTED")
  else if (200 <=? Inventory.status r) && (Inventory.status r <? 300)
  then AxiosResponse (Inventory.status r) (Inventory.body r)
  else if Inventory.status r <? 500 then AxiosError (Some "ERR_BAD_REQUEST")
  else AxiosError (Some "ERR_BAD_RESPONSE").

(** *** [POST /orders] *)

Definition missing_fields : Reply :=
  mkReply 400 (ErrorBody "Missing productId or quantity").

Definition inventory_issue : string := "Order failed due to inventory issue".
Definition timed_out : string :=
  "Order processing timed out waiting for inventory".

(** The message the [catch] block picks: [ecode] is [error.code]. *)
Definition error_message (ecode : option string) : string :=
  if bool_decide (ecode = Some "ECONNABORTED") then timed_out
  else inventory_issue.

(** The [catch] block: [oid] is [order.id], [ecode] is [error.code]. *)
Definition on_error (ecode : option string) (oid : string)
    (st : Store) (inv : Inventory.Db) : World * option Reply :=
  let errorMessage := error_message ecode in
  (* Update to FAILED *)
  match order_update oid FAILED st with
  | Some (st', _) =>
      (mkWorld st' inv, Some (mkReply 503 (FailedBody errorMessage oid FAILED)))
  | None => (mkWorld st inv, None)
  end.

(** The handler.  The reply is [None] when an exception escapes the
    handler, which then never answers. *)
Definition post_orders (req : OrderRequest) (env : Env) (w : World)
  : World * option Reply :=
  match req_productId req, req_quantity req with
  | Some pid, Some q =>
      if bool_decide (pid = "") || (q =? 0)
      then (w, Some missing_fields)
      else
        (* 1. Create Order (PENDING) *)
        match order_create (mkOrder (new_id env) pid q PENDING (now env))
                (orders w) with
        | None => (w, None)
        | Some st =>
            let oid := new_id env in
            (* 2. Call Inventory Service with Timeout *)
            let '(inv, r) :=
              Inventory.deduct
                (Inventory.mkDeductBody (Some pid) (Some q) (Some oid))
                (inventory w) in
            match axios_post TIMEOUT (latency env + Inventory.delay r) r with
            | AxiosResponse status _ =>
                if status =? 200
                then
                  (* 3. Update Order to CONFIRMED *)
                  match order_update oid CONFIRMED st with
                  | Some (st', updatedOrder) =>
                      (mkWorld st' inv,
                       Some (mkReply 201 (OrderBody updatedOrder)))
                  | None => on_error (Some "P2025") oid st inv
                  end
                else on_error None oid st inv
            | AxiosError ecode => on_error ecode oid st inv
            end
        end
  | _, _ => (w, Some missing_fields)
  end.

(** *** [GET /orders] *)

(** [b] was not created before [a]. *)
Definition newer_first (a b : Order) : Prop := createdAt b ≤ createdAt a.

#[global] Instance newer_first_dec : RelDecision newer_first.
Proof. intros a b. unfold newer_first. apply _. Defined.

(** [findMany({ orderBy: { createdAt: 'desc' } })]; the table is left as
    it is. *)
Definition get_orders (w : World) : World * option Reply :=
  (w, Some (mkReply 200
              (OrdersBody (merge_sort newer_first
                             (map_to_list (order (orders w))).*2)))).

(** *** Vocabulary of the properties *)

Definition terminal (s : OrderStatus) : Prop := s = CONFIRMED ∨ s = FAILED.

(** A body that passes the check for missing fields. *)
Definition accepted_order (req : OrderRequest) : Prop :=
  match req_productId req, req_quantity req with
  | Some pid, Some q => pid ≠ "" ∧ q ≠ 0
  | _, _ => False
  end.

#[global] Instance accepted_order_dec req : Decision (accepted_order req).
Proof.
  unfold accepted_order.
  destruct (req_productId req), (req_quantity req); apply _.
Defined.

(** The [orderId] key of a reply. *)
Definition reply_orderId (r : Reply) : option string :=
  match body r with
  | FailedBody _ oid _ => Some oid
  | _ => None
  end.

(** The [order] table and its journal once the order of [env] was
    created for [pid] and [q] and then moved to [s]. *)
Definition settled (pid : string) (q : Z) (env : Env) (w : World)
    (s : OrderStatus) : Store :=
  let pending := mkOrder (new_id env) pid q PENDING (now env) in
  mkStore (<[new_id env := with_status pending s]>
             (<[new_id env := pending]> (order (orders w))))
          (Updated (new_id env) s :: Created pending :: journal (orders w)).

(** A journal made of sagas only: each order is created as PENDING and
    the next statement moves that order to a terminal state. *)
Inductive sagas : list Write → Prop :=
| sagas_nil : sagas []
| sagas_cons o s j :
    status o = PENDING → terminal s → sagas j →
    sagas (Updated (id o) s :: Created o :: j).

(** An empty [order] table next to the inventory [Inventory.db_100]. *)
Definition world_100 : World := mkWorld (mkStore ∅ []) Inventory.db_100.

(** The statement that every failure reply of [POST /orders] carries an
    order identifier. *)
Definition failures_carry_orderId : Prop :=
  ∀ req env w r,
    (post_orders req env w).2 = Some r → 400 ≤ code r →
    is_Some (reply_orderId r).

End OrderService.

(** ** The two services together *)

Module System.
Import OrderService.

(** The requests that write to a database, and [GET /orders].  The
    remaining routes ([/health], [/metrics], [GET /products]) only
    read. *)
Inductive Request :=
| GetOrders
| PostOrders (req : OrderRequest) (env : Env)
| PostDeduct (req : Inventory.DeductBody)
| PostSeed (ids : string * string * string * string).

Definition handle (r : Request) (w : World) : World :=
  match r with
  | GetOrders => (get_orders w).1
  | PostOrders req env => (post_orders req env w).1
  | PostDeduct req =>
      mkWorld (orders w) (Inventory.deduct req (inventory w)).1
  | PostSeed ids =>
      mkWorld (orders w) (Inventory.seedProducts ids (inventory w))
  end.

(** Requests handled one after the other. *)
Definition run (rs : list Request) (w : World) : World :=
  foldl (λ w r, handle r w) w rs.

End System.

(** ** The dashboard *)

Module Frontend.
Import OrderService.

(** [const quantity = isGremlin ? 3 : 1] *)
Definition order_quantity (isGremlin : bool) : Z :=
  if isGremlin then 3 else 1.

(** The body [placeOrder] posts to [/orders] for the selected product;
    nothing is posted while no product is selected. *)
Definition placeOrder_body (selectedProduct : string) (isGremlin : bool)
  : option OrderRequest :=
  if bool_decide (selectedProduct = "") then None
  else Some (mkOrderRequest (Some selectedProduct)
               (Some (order_quantity isGremlin))).

(** The request of [placeOrder] and what comes back from the order
    service: [None] when nothing was posted.  The log lines and the
    measured duration are left out. *)
Definition placeOrder (selectedProduct : string) (isGremlin : bool)
    (env : Env) (w : World) : World * option (option Reply) :=
  match placeOrder_body selectedProduct isGremlin with
  | None => (w, None)
  | Some req =>
      let '(w', r) := post_orders req env w in (w', Some r)
  end.

End Frontend.

(** ** Bookkeeping over served requests *)

Module Ledger.
Import Inventory.

(** The reply is the one sent after a committed transaction. *)
Definition is_deducted (r : Reply) : bool :=
  match body r with
  | SuccessBody m => bool_decide (m = "Stock deducted")
  | ErrorBody _ => false
  end.

(** What a served request took from product [pid]: its quantity when
    the request named [pid] and was answered "Stock deducted". *)
Definition taken (pid : string) (req : DeductBody) (r : Reply) : Z :=
  match productId req, quantity req with
  | Some pid', Some q =>
      if bool_decide (pid' = pid) && is_deducted r then q else 0
  | _, _ => 0
  end.

Fixpoint taken_total (pid : string) (reqs : list DeductBody)
    (rs : list Reply) : Z :=
  match reqs, rs with
  | req :: reqs', r :: rs' => taken pid req r + taken_total pid reqs' rs'
  | _, _ => 0
  end.

(** The number of served requests for the identifier [oid] that were
    answered "Stock deducted". *)
Fixpoint commits (oid : string) (reqs : list DeductBody) (rs : list Reply)
  : nat :=
  match reqs, rs with
  | req :: reqs', r :: rs' =>
      ((if bool_decide (orderId req = Some oid) && is_deducted r
        then 1 else 0) + commits oid reqs' rs')%nat
  | _, _ => 0%nat
  end.

(** The identifiers the requests carry. *)
Definition order_ids (reqs : list DeductBody) : gset string :=
  list_to_set (omap orderId reqs).

(** Every handler of the pool works for [oid] or has answered. *)
Definition works_for (oid : string) (s : Stage) : Prop :=
  match s with
  | Answered _ => True
  | _ => stage_orderId s = Some oid
  end.

(** Every row is stored under its own [id]. *)
Definition keyed_by_id (db : Db) : Prop :=
  ∀ k p, product db !! k = Some p → id p = k.

End Ledger.

(** ** Vocabulary for the orders of the whole system *)

Module Books.
Import OrderService.

(** Every CONFIRMED order has its entry in the idempotency log of the
    inventory service. *)
Definition confirmed_logged (w : World) : Prop :=
  ∀ oid o,
    order (orders w) !! oid = Some o → status o = CONFIRMED →
    oid ∈ Inventory.idempotencyLog (inventory w).

(** No order is PENDING. *)
Definition all_settled (w : World) : Prop :=
  ∀ oid o, order (orders w) !! oid = Some o → terminal (status o).

(** Every order is stored under its own [id]. *)
Definition orders_keyed_by_id (w : World) : Prop :=
  ∀ oid o, order (orders w) !! oid = Some o → id o = oid.

End Books.

(** * Properties of the inventory service *)

Module InventoryFacts.
Import Inventory.

(** ** The transaction, case by case *)

Lemma callback_view pid q oid db :
  deduct_callback pid q oid db =
  match product db !! pid with
  | None => (db, inl insufficient)
  | Some p =>
      if stock p <? q then (db, inl insufficient)
      else
        let view :=
          mkDb (<[pid := with_stock p (stock p - q)]> (product db))
               (idempotencyLog db) in
        if decide (oid ∈ idempotencyLog db)
        then (view, inl unique_constraint_failed)
        else (committed pid p q oid db, inr tt)
  end.
Proof.
  unfold deduct_callback, mbind, tx_bind, product_findUnique, throw.
  destruct (product db !! pid) as [p|] eqn:Hp; [|done].
  destruct (stock p <? q); [done|].
  unfold product_update, idempotencyLog_create. rewrite Hp. simpl.
  by destruct (decide (oid ∈ idempotencyLog db)).
Qed.

Lemma transaction_cases pid q oid db :
  transaction (deduct_callback pid q oid) db =
  match product db !! pid with
  | None => (db, inl insufficient)
  | Some p =>
      if stock p <? q then (db, inl insufficient)
      else if decide (oid ∈ idempotencyLog db)
      then (db, inl unique_constraint_failed)
      else (committed pid p q oid db, inr tt)
  end.
Proof.
  unfold transaction. rewrite callback_view.
  destruct (product db !! pid) as [p|]; [|done].
  destruct (stock p <? q); [done|].
  by destruct (decide (oid ∈ idempotencyLog db)).
Qed.

Lemma transaction_rollback {A} (callback : Tx A) db view e :
  callback db = (view, inl e) → transaction callback db = (db, inl e).
Proof. intros H. unfold transaction. by rewrite H. Qed.

Lemma transaction_commit {A} (callback : Tx A) db view a :
  callback db = (view, inr a) → transaction callback db = (view, inr a).
Proof. intros H. unfold transaction. by rewrite H. Qed.

(** ** The handler, case by case *)

Section Handler.
Context (pid oid : string) (q : Z) (db : Db).
Hypothesis Hpid : pid ≠ "".
Hypothesis Hq : q ≠ 0.
Hypothesis Hoid : oid ≠ "".

Let req := mkDeductBody (Some pid) (Some q) (Some oid).

Lemma deduct_checked :
  deduct req db =
  if decide (oid ∈ idempotencyLog db) then (db, already_deducted)
  else match transaction (deduct_callback pid q oid) db with
       | (db', inr _) => (db', deducted q)
       | (db', inl e) => (db', rejected e)
       end.
Proof.
  unfold deduct, req. simpl.
  rewrite !bool_decide_eq_false_2 by done.
  by destruct (Z.eqb_spec q 0).
Qed.

Lemma deduct_replay :
  oid ∈ idempotencyLog db → deduct req db = (db, already_deducted).
Proof. intros Hin. rewrite deduct_checked. by rewrite decide_True. Qed.

Lemma deduct_first p :
  oid ∉ idempotencyLog db → product db !! pid = Some p → q ≤ stock p →
  deduct req db = (committed pid p q oid db, deducted q).
Proof.
  intros Hfresh Hp Hle. rewrite deduct_checked, decide_False by done.
  rewrite transaction_cases, Hp, decide_False by done.
  by destruct (Z.ltb_spec (stock p) q); [lia|].
Qed.

Lemma deduct_short p :
  oid ∉ idempotencyLog db → product db !! pid = Some p → stock p < q →
  deduct req db = (db, rejected insufficient).
Proof.
  intros Hfresh Hp Hlt. rewrite deduct_checked, decide_False by done.
  rewrite transaction_cases, Hp.
  by destruct (Z.ltb_spec (stock p) q); [|lia].
Qed.

Lemma deduct_unknown :
  oid ∉ idempotencyLog db → product db !! pid = None →
  deduct req db = (db, rejected insufficient).
Proof.
  intros Hfresh Hp. rewrite deduct_checked, decide_False by done.
  by rewrite transaction_cases, Hp.
Qed.
End Handler.

Lemma accepted_inv req :
  accepted req →
  ∃ pid q oid, req = mkDeductBody (Some pid) (Some q) (Some oid)
               ∧ pid ≠ "" ∧ q ≠ 0 ∧ oid ≠ "".
Proof.
  destruct req as [[pid|] [q|] [oid|]]; unfold accepted; simpl; try done.
  intros (?&?&?). by exists pid, q, oid.
Qed.

Lemma deduct_not_accepted req db :
  ¬ accepted req → deduct req db = (db, missing_fields).
Proof.
  destruct req as [[pid|] [q|] [oid|]]; unfold accepted, deduct; simpl;
    try done.
  intros Hn.
  destruct (decide (pid = "")) as [->|?]; [done|].
  destruct (Z.eqb_spec q 0) as [->|?];
    [by rewrite bool_decide_eq_false_2|].
  destruct (decide (oid = "")) as [->|?].
  - rewrite bool_decide_eq_false_2 by done. done.
  - exfalso. by apply Hn.
Qed.

Lemma deduct_outcome req db :
  Outcome req db (deduct req db).1 (deduct req db).2.
Proof.
  destruct (decide (accepted req)) as [Hacc|Hacc].
  - destruct (accepted_inv _ Hacc) as (pid & q & oid & -> & Hpid & Hq & Hoid).
    destruct (decide (oid ∈ idempotencyLog db)) as [Hin|Hin].
    { rewrite deduct_replay by done. by eapply Replayed. }
    destruct (product db !! pid) as [p|] eqn:Hp.
    + destruct (Z.lt_ge_cases (stock p) q).
      * rewrite (deduct_short _ _ _ _ Hpid Hq Hoid p) by done.
        eapply Refused; eauto.
      * rewrite (deduct_first _ _ _ _ Hpid Hq Hoid p) by done.
        by eapply Committed.
    + rewrite deduct_unknown by done. eapply Refused; eauto.
  - rewrite deduct_not_accepted by done. by apply Invalid.
Qed.

Lemma serve_cons req reqs db :
  serve (req :: reqs) db =
  ((serve reqs (deduct req db).1).1,
   (deduct req db).2 :: (serve reqs (deduct req db).1).2).
Proof.
  simpl. destruct (deduct req db) as [db1 r]. simpl.
  by destruct (serve reqs db1).
Qed.

(** Replays of an identifier that is in the log change nothing. *)
Lemma serve_replays oid replays db :
  oid ∈ idempotencyLog db →
  Forall (λ r, accepted r ∧ orderId r = Some oid) replays →
  serve replays db = (db, (λ _, already_deducted) <$> replays).
Proof.
  intros Hin. induction 1 as [|r rs [Hacc Hoid] _ IH]; [done|].
  destruct (accepted_inv _ Hacc) as (pid & q & oid' & -> & ? & ? & ?).
  simpl in Hoid. injection Hoid as ->.
  rewrite serve_cons, deduct_replay by done. simpl. by rewrite IH.
Qed.

(** C1. Idempotency of deduction.  The first request for an operation
    identifier [oid], on a product with enough stock, answers "Stock
    deducted" and commits one decrement together with the log entry: the
    stored stock is [stock p - q].  Every later request that carries the
    same identifier, served after it, answers "Stock already deducted
    (Idempotent)" with no delay, even when its quantity is the
    Gremlin's, and the database stays what the first request made it:
    after the request was served [S n] times, and after any replays of
    its identifier, the stored stock is still [stock p - q]. *)
Theorem deduct_idempotent (db : Db) (pid oid : string) (q : Z)
    (p : Product) (replays : list DeductBody) :
  pid ≠ "" → q ≠ 0 → oid ≠ "" →
  product db !! pid = Some p → q ≤ stock p →
  oid ∉ idempotencyLog db →
  Forall (λ r, accepted r ∧ orderId r = Some oid) replays →
  let first := mkDeductBody (Some pid) (Some q) (Some oid) in
  let db1 := (deduct first db).1 in
  (deduct first db).2 = mkReply 200 (SuccessBody "Stock deducted") (gremlin q)
  ∧ product db1 = <[pid := mkProduct (id p) (name p) (stock p - q)]> (product db)
  ∧ product db1 !! pid = Some (mkProduct (id p) (name p) (stock p - q))
  ∧ idempotencyLog db1 = {[oid]} ∪ idempotencyLog db
  ∧ (∀ n : nat,
       serve (replicate (S n) first) db
       = (db1, deducted q :: replicate n already_deducted)
       ∧ product (serve (replicate (S n) first) db).1 !! pid
         = Some (mkProduct (id p) (name p) (stock p - q)))
  ∧ serve (first :: replays) db
    = (db1, deducted q :: ((λ _, already_deducted) <$> replays))
  ∧ product (serve (first :: replays) db).1 !! pid
    = Some (mkProduct (id p) (name p) (stock p - q))
  ∧ (∀ r, r ∈ replays → deduct r db1 = (db1, already_deducted))
  ∧ already_deducted
    = mkReply 200 (SuccessBody "Stock already deducted (Idempotent)") 0.
Proof.
  intros Hpid Hq Hoid Hp Hle Hfresh Hreplays first db1.
  assert (Hfirst : deduct first db = (committed pid p q oid db, deducted q))
    by by apply deduct_first.
  assert (Hlogged : oid ∈ idempotencyLog db1).
  { unfold db1. rewrite Hfirst. simpl. set_solver. }
  assert (Hrow : product db1 !! pid
                 = Some (mkProduct (id p) (name p) (stock p - q))).
  { unfold db1. rewrite Hfirst. simpl. apply lookup_insert_eq. }
  assert (Hn : ∀ n : nat,
             serve (replicate (S n) first) db
             = (db1, deducted q :: replicate n already_deducted)).
  { intros n. change (replicate (S n) first) with (first :: replicate n first).
    rewrite serve_cons.
    rewrite (serve_replays oid) by (done || by apply Forall_replicate).
    simpl. unfold db1. by rewrite Hfirst, fmap_replicate. }
  assert (Hall : serve (first :: replays) db
                 = (db1, deducted q :: ((λ _, already_deducted) <$> replays))).
  { rewrite serve_cons, (serve_replays oid) by done.
    simpl. unfold db1. by rewrite Hfirst. }
  split_and!.
  - by rewrite Hfirst.
  - unfold db1. by rewrite Hfirst.
  - done.
  - unfold db1. by rewrite Hfirst.
  - intros n. by rewrite Hn.
  - done.
  - by rewrite Hall.
  - intros r Hr. rewrite Forall_forall in Hreplays.
    destruct (Hreplays r Hr) as [Hacc Hsame].
    destruct (accepted_inv _ Hacc) as (pid' & q' & oid' & -> & ? & ? & ?).
    simpl in Hsame. injection Hsame as ->. by apply deduct_replay.
  - done.
Qed.

Lemma deduct_idempotent_witness :
  let first := mkDeductBody (Some "p1") (Some 13) (Some "o1") in
  let db1 := (deduct first db_100).1 in
  (deduct first db_100).2 = mkReply 200 (SuccessBody "Stock deducted") 5000
  ∧ product db1 !! "p1" = Some (mkProduct "p1" "Quantum Processor" 87)
  ∧ idempotencyLog db1 = {[ "o1" ]}
  ∧ serve [first; first; first] db_100
    = (db1,
       [ mkReply 200 (SuccessBody "Stock deducted") 5000;
         mkReply 200 (SuccessBody "Stock already deducted (Idempotent)") 0;
         mkReply 200 (SuccessBody "Stock already deducted (Idempotent)") 0 ])
  ∧ product (serve [first; first; first] db_100).1 !! "p1"
    = Some (mkProduct "p1" "Quantum Processor" 87).
Proof.
  intros first db1.
  destruct (deduct_idempotent db_100 "p1" "o1" 13
              (mkProduct "p1" "Quantum Processor" 100) [first; first])
    as (Hreply & _ & Hrow & Hlog & _ & Hserve & Hstock & _).
  - done.
  - done.
  - done.
  - reflexivity.
  - simpl. lia.
  - simpl. set_solver.
  - repeat constructor; done.
  - fold first in Hreply, Hrow, Hlog, Hserve, Hstock. fold db1 in Hrow, Hlog, Hserve.
    split_and!.
    + exact Hreply.
    + exact Hrow.
    + rewrite Hlog. simpl. apply union_empty_r_L.
    + exact Hserve.
    + exact Hstock.
Defined.

(** A transaction interrupted after the decrement: the identifier is in
    the log already, so the insert into the log throws once the stock was
    written in the transaction's view.  The committed database shows
    neither write. *)
Example interrupted_transaction :
  let db := mkDb {[ "p1" := mkProduct "p1" "Quantum Processor" 100 ]}
                 {[ "o1" ]} in
  product ((deduct_callback "p1" 1 "o1" db).1) !! "p1"
  = Some (mkProduct "p1" "Quantum Processor" 99)
  ∧ (transaction (deduct_callback "p1" 1 "o1") db).1 = db
  ∧ product ((transaction (deduct_callback "p1" 1 "o1") db).1) !! "p1"
    = Some (mkProduct "p1" "Quantum Processor" 100).
Proof. split_and!; by vm_compute. Qed.

(** The step of the handler that runs the transaction, case by case. *)
Lemma advance_checked pid q oid db :
  advance (Checked pid q oid) db =
  match product db !! pid with
  | None => (db, Answered (rejected insufficient))
  | Some p =>
      if stock p <? q then (db, Answered (rejected insufficient))
      else if decide (oid ∈ idempotencyLog db)
      then (db, Answered (rejected unique_constraint_failed))
      else (committed pid p q oid db, Answered (deducted q))
  end.
Proof.
  simpl. rewrite transaction_cases.
  destruct (product db !! pid) as [p|]; [|done].
  destruct (stock p <? q); [done|].
  by destruct (decide (oid ∈ idempotencyLog db)).
Qed.

(** C2. Atomicity of decrement plus log.  The step of the handler that
    runs the transaction, from whatever database it starts (other
    handlers may have run since the look-up in the idempotency log),
    ends in one of two ways.  Either the stored stock is [stock p - q]
    and the identifier is in the log, and the reply is "Stock deducted".
    Or the database is the one the step started from, and the reply is
    400 with the message of the error the callback threw: this is so
    for a missing product and for a short stock, and also when the
    callback had already written the decremented stock in its view
    before the insert into the log threw.  A handler served alone answers
    as this step does; there the callback throws only before its first
    write, and in no case is one write left without the other. *)
Theorem deduct_atomic (pid oid : string) (q : Z) (db : Db) :
  let step := advance (Checked pid q oid) db in
  ((∃ p, product db !! pid = Some p ∧ q ≤ stock p
         ∧ (oid ∉ idempotencyLog db)
         ∧ step.2
           = Answered
               (mkReply 200 (SuccessBody "Stock deducted") (gremlin q))
         ∧ product step.1
           = <[pid := mkProduct (id p) (name p) (stock p - q)]> (product db)
         ∧ idempotencyLog step.1 = {[oid]} ∪ idempotencyLog db)
   ∨ (step.1 = db
      ∧ ∃ e view,
          deduct_callback pid q oid db = (view, inl e)
          ∧ step.2 = Answered (mkReply 400 (ErrorBody (message e)) 0)
          ∧ (product db !! pid = None
             ∨ (∃ p, product db !! pid = Some p ∧ stock p < q) →
             view = db
             ∧ message e = "Insufficient stock or product not found")
          ∧ (∀ p, product db !! pid = Some p → q ≤ stock p →
               oid ∈ idempotencyLog db
               ∧ product view !! pid
                 = Some (mkProduct (id p) (name p) (stock p - q))
               ∧ product step.1 !! pid = Some p)))
  ∧ (pid ≠ "" → q ≠ 0 → oid ≠ "" → oid ∉ idempotencyLog db →
     (∃ r, step.2 = Answered r
           ∧ deduct (mkDeductBody (Some pid) (Some q) (Some oid)) db
             = (step.1, r))
     ∧ (∀ view e, deduct_callback pid q oid db = (view, inl e) → view = db))
  ∧ (∀ req,
       (deduct req db).1 = db
       ∨ ∃ pid' q' oid' p,
           req = mkDeductBody (Some pid') (Some q') (Some oid')
           ∧ product db !! pid' = Some p
           ∧ (oid' ∉ idempotencyLog db)
           ∧ product (deduct req db).1
             = <[pid' := mkProduct (id p) (name p) (stock p - q')]>
                 (product db)
           ∧ idempotencyLog (deduct req db).1
             = {[oid']} ∪ idempotencyLog db).
Proof.
  intros step. split_and!.
  - unfold step. rewrite advance_checked.
    pose proof (callback_view pid q oid db) as Hview.
    destruct (product db !! pid) as [p|] eqn:Hp.
    + destruct (Z.ltb_spec (stock p) q) as [Hlt|Hge].
      * right. split; [done|]. exists insufficient, db.
        split_and!; try done. intros p' [= <-] ?. lia.
      * simpl in Hview.
        destruct (decide (oid ∈ idempotencyLog db)) as [Hin|Hout].
        -- right. split; [done|]. eexists _, _. split_and!; try done.
           ++ intros [?|(p' & ? & ?)]; simplify_eq; lia.
           ++ intros p' [= <-] _. split_and!; try done.
              simpl. apply lookup_insert_eq.
        -- left. exists p. by split_and!.
    + right. split; [done|]. exists insufficient, db.
      split_and!; try done.
  - intros Hpid Hq Hoid Hout. split.
    + unfold step. rewrite deduct_checked, decide_False by done. simpl.
      destruct (transaction _ _) as [db' [e|[]]]; by eexists.
    + intros view e. rewrite callback_view.
      destruct (product db !! pid) as [p|]; [|by intros [= <- _]].
      destruct (stock p <? q); [by intros [= <- _]|].
      simpl. by rewrite decide_False.
  - intros req.
    destruct (deduct_outcome req db) as [| | |pid' q' oid' p]; auto.
    right. by exists pid', q', oid', p.
Qed.

Lemma deduct_atomic_witness :
  let db := mkDb {[ "p1" := mkProduct "p1" "Quantum Processor" 100 ]}
                 {[ "o1" ]} in
  let step := advance (Checked "p1" 1 "o1") db in
  step.1 = db
  ∧ product step.1 !! "p1" = Some (mkProduct "p1" "Quantum Processor" 100)
  ∧ product ((deduct_callback "p1" 1 "o1" db).1) !! "p1"
    = Some (mkProduct "p1" "Quantum Processor" 99)
  ∧ ∃ e, step.2 = Answered (mkReply 400 (ErrorBody (message e)) 0).
Proof.
  intros db step.
  destruct (proj1 (deduct_atomic "p1" "o1" 1 db))
    as [(p & _ & _ & Hout & _)
       |(Hsame & e & view & Hcb & Hreply & _ & Hwritten)].
  - exfalso. apply Hout. simpl. by apply elem_of_singleton.
  - destruct (Hwritten (mkProduct "p1" "Quantum Processor" 100))
      as (_ & Hview & Hrow).
    + reflexivity.
    + simpl. lia.
    + fold step in Hsame, Hreply, Hrow. split_and!.
      * exact Hsame.
      * exact Hrow.
      * rewrite Hcb. exact Hview.
      * by exists e.
Defined.

(** ** Handlers in flight *)

(** Served alone, a handler takes its two steps back to back. *)
Lemma deduct_advance req db :
  let '(db1, s1) := advance (Arrived req) db in
  advance s1 db1 = ((deduct req db).1, Answered (deduct req db).2).
Proof.
  unfold advance, deduct.
  destruct (productId req) as [pid|]; [|done].
  destruct (quantity req) as [q|]; [|done].
  destruct (orderId req) as [oid|]; [|done].
  destruct (_ || _); [done|].
  destruct (decide (oid ∈ idempotencyLog db)); [done|].
  by destruct (transaction _ _) as [db' [e|[]]].
Qed.

(** No step takes an identifier out of the log. *)
Lemma advance_log_mono s db :
  idempotencyLog db ⊆ idempotencyLog (advance s db).1.
Proof.
  destruct s as [req|pid q oid|r]; simpl; [|rewrite transaction_cases|done].
  - destruct (productId req), (quantity req), (orderId req); try done.
    destruct (_ || _); [done|]. by destruct (decide _).
  - destruct (product db !! pid) as [p|]; [|done].
    destruct (stock p <? q); [done|].
    destruct (decide (oid ∈ idempotencyLog db)); [done|]. simpl. set_solver.
Qed.

(** Once an identifier is in the log, no handler that works for it
    changes the database, at whatever stage it is. *)
Lemma advance_logged s db oid :
  stage_orderId s = Some oid → oid ∈ idempotencyLog db →
  (advance s db).1 = db.
Proof.
  intros Hs Hin. destruct s as [req|pid q oid'|r]; simpl in *; [| |done].
  - destruct (productId req), (quantity req), (orderId req); try done.
    destruct (_ || _); [done|]. by destruct (decide _).
  - injection Hs as ->. rewrite transaction_cases.
    destruct (product db !! pid) as [p|]; [|done].
    destruct (stock p <? q); [done|]. by rewrite decide_True.
Qed.

(** Two handlers for one identifier that both pass the look-up before
    either runs its transaction: the second transaction fails on the
    unique column and one decrement is committed. *)
Example racing_handlers :
  let req := mkDeductBody (Some "p1") (Some 1) (Some "o1") in
  let final := interleave [0; 1; 0; 1]%nat [Arrived req; Arrived req] db_100 in
  final.2 = mkDb {[ "p1" := mkProduct "p1" "Quantum Processor" 99 ]} {[ "o1" ]}
  ∧ ∃ e, final.1 = [Answered (deducted 1); Answered (rejected e)].
Proof. split; [by vm_compute|]. by eexists. Qed.

(** ** Non-negative stock *)

Lemma committed_nonneg pid p q oid db :
  stock_nonneg db → q ≤ stock p →
  stock_nonneg (committed pid p q oid db).
Proof.
  intros Hdb Hle pid' p'. simpl. rewrite lookup_insert.
  case_decide; [|by apply Hdb].
  intros [= <-]. simpl. lia.
Qed.

Lemma transaction_nonneg pid q oid db :
  stock_nonneg db →
  stock_nonneg (transaction (deduct_callback pid q oid) db).1.
Proof.
  intros Hdb. rewrite transaction_cases.
  destruct (product db !! pid) as [p|] eqn:Hp; [|done].
  destruct (Z.ltb_spec (stock p) q); [done|].
  destruct (decide (oid ∈ idempotencyLog db)); [done|].
  by apply committed_nonneg.
Qed.

Lemma deduct_nonneg req db :
  stock_nonneg db → stock_nonneg (deduct req db).1.
Proof.
  intros Hdb.
  destruct (deduct_outcome req db); try done.
  by apply committed_nonneg.
Qed.

Lemma advance_nonneg s db :
  stock_nonneg db → stock_nonneg (advance s db).1.
Proof.
  intros Hdb. destruct s as [req|pid q oid|r]; simpl; [| |done].
  - destruct (productId req), (quantity req), (orderId req); try done.
    destruct (_ || _); [done|]. by destruct (decide _).
  - pose proof (transaction_nonneg pid q oid db Hdb) as Htx.
    by destruct (transaction _ _) as [db' [e|[]]].
Qed.

Lemma interleave_nonneg turns pool db :
  stock_nonneg db → stock_nonneg (interleave turns pool db).2.
Proof.
  revert pool db.
  induction turns as [|i turns IH]; intros pool db Hdb; [done|].
  simpl. destruct (pool !! i) as [s|]; [|by apply IH].
  pose proof (advance_nonneg s db Hdb) as Hs.
  destruct (advance s db) as [db' s']. by apply IH.
Qed.

Lemma serve_nonneg reqs db :
  stock_nonneg db → stock_nonneg (serve reqs db).1.
Proof.
  revert db. induction reqs as [|req reqs IH]; intros db Hdb; [done|].
  rewrite serve_cons. simpl. by apply IH, deduct_nonneg.
Qed.

Lemma seed_rows_nonneg ids i p : (i, p) ∈ seed_rows ids → 0 ≤ stock p.
Proof.
  destruct ids as [[[i1 i2] i3] i4]. simpl.
  rewrite !elem_of_cons, elem_of_nil.
  intros [?|[?|[?|[?|[]]]]]; simplify_eq; simpl; lia.
Qed.

Lemma seedProducts_nonneg ids db :
  stock_nonneg db → stock_nonneg (seedProducts ids db).
Proof.
  intros Hdb. unfold seedProducts.
  repeat case_bool_decide; try done.
  intros pid p. simpl. intros Hp%elem_of_list_to_map_2.
  by eapply seed_rows_nonneg.
Qed.

(** C3. Stock non-negativity.  Serving any sequence of deduction
    requests keeps every stock count at or above zero, and so does the
    transaction on its own, from whatever database it starts.  The
    handler changes the database only when the product's stock is at
    least the requested quantity; a request for more than the stock is
    answered 400 "Insufficient stock or product not found" and leaves the
    stock and the idempotency log as they were.  The stock counts stay
    at or above zero as well when the steps of several handlers are
    interleaved in any order. *)
Theorem stock_never_negative :
  (∀ reqs db, stock_nonneg db → stock_nonneg (serve reqs db).1)
  ∧ (∀ pid q oid db,
       stock_nonneg db →
       stock_nonneg (transaction (deduct_callback pid q oid) db).1)
  ∧ (∀ turns pool db,
       stock_nonneg db → stock_nonneg (interleave turns pool db).2)
  ∧ (∀ req db,
       (deduct req db).1 ≠ db →
       ∃ pid q oid p,
         req = mkDeductBody (Some pid) (Some q) (Some oid)
         ∧ product db !! pid = Some p ∧ q ≤ stock p
         ∧ (deduct req db).1 = committed pid p q oid db)
  ∧ (∀ pid q oid db p,
       pid ≠ "" → q ≠ 0 → oid ≠ "" → oid ∉ idempotencyLog db →
       product db !! pid = Some p → stock p < q →
       deduct (mkDeductBody (Some pid) (Some q) (Some oid)) db
       = (db, mkReply 400
                (ErrorBody "Insufficient stock or product not found") 0)).
Proof.
  split_and!.
  - apply serve_nonneg.
  - apply transaction_nonneg.
  - apply interleave_nonneg.
  - intros req db Hne.
    destruct (deduct_outcome req db) as [| | |pid q oid p]; try done.
    by exists pid, q, oid, p.
  - intros. by eapply deduct_short.
Qed.

Lemma stock_never_negative_witness :
  stock_nonneg
    (serve [ mkDeductBody (Some "p1") (Some 60) (Some "o1");
             mkDeductBody (Some "p1") (Some 60) (Some "o2") ] db_100).1
  ∧ deduct (mkDeductBody (Some "p1") (Some 101) (Some "o1")) db_100
    = (db_100, mkReply 400
                 (ErrorBody "Insufficient stock or product not found") 0).
Proof.
  destruct stock_never_negative as (Hserve & _ & _ & _ & Hshort). split.
  - apply Hserve. intros pid p. unfold db_100. simpl.
    rewrite lookup_singleton. case_decide; [|done].
    intros [= <-]. simpl. lia.
  - apply (Hshort "p1" 101 "o1" db_100
             (mkProduct "p1" "Quantum Processor" 100)).
    + done.
    + done.
    + done.
    + simpl. set_solver.
    + reflexivity.
    + simpl. lia.
Defined.

(** ** Failure causes *)

(** The replies for an unknown product and for an exhausted one are the
    same reply. *)
Lemma failure_causes_indistinguishable :
  (deduct (mkDeductBody (Some "p1") (Some 1) (Some "o1")) (mkDb ∅ ∅)).2
  = mkReply 400 (ErrorBody "Insufficient stock or product not found") 0
  ∧ (deduct (mkDeductBody (Some "p1") (Some 1) (Some "o1"))
       (mkDb {[ "p1" := mkProduct "p1" "Hyperdrive Unit" 0 ]} ∅)).2
    = mkReply 400 (ErrorBody "Insufficient stock or product not found") 0
  ∧ ¬ distinct_failure_causes.
Proof.
  split_and!; [by vm_compute..|].
  intros Hdistinct.
  apply (Hdistinct "p1" 1 "o1" (mkDb ∅ ∅)
           (mkDb {[ "p1" := mkProduct "p1" "Hyperdrive Unit" 0 ]} ∅)
           (mkProduct "p1" "Hyperdrive Unit" 0));
    try done; simpl; try set_solver; lia.
Qed.

(** C6, as the code has it.  A deduction for a product that does not
    exist and a deduction for more than the product's stock both fail,
    with one and the same reply: status 400 and the error "Insufficient
    stock or product not found".  The database is unchanged in both
    cases. *)
Theorem deduct_failure_causes (pid oid : string) (q : Z) (db : Db) :
  pid ≠ "" → q ≠ 0 → oid ≠ "" → oid ∉ idempotencyLog db →
  product db !! pid = None
  ∨ (∃ p, product db !! pid = Some p ∧ stock p < q) →
  deduct (mkDeductBody (Some pid) (Some q) (Some oid)) db
  = (db, mkReply 400 (ErrorBody "Insufficient stock or product not found") 0).
Proof.
  intros Hpid Hq Hoid Hfresh [Hp|(p & Hp & Hlt)].
  - by eapply deduct_unknown.
  - by eapply deduct_short.
Qed.

Lemma deduct_failure_causes_witness :
  deduct (mkDeductBody (Some "p2") (Some 1) (Some "o1")) db_100
  = (db_100,
     mkReply 400 (ErrorBody "Insufficient stock or product not found") 0)
  ∧ deduct (mkDeductBody (Some "p1") (Some 101) (Some "o1")) db_100
    = (db_100,
       mkReply 400 (ErrorBody "Insufficient stock or product not found") 0).
Proof.
  split.
  - apply (deduct_failure_causes "p2" "o1" 1 db_100).
    + done.
    + done.
    + done.
    + simpl. set_solver.
    + left. reflexivity.
  - apply (deduct_failure_causes "p1" "o1" 101 db_100).
    + done.
    + done.
    + done.
    + simpl. set_solver.
    + right. exists (mkProduct "p1" "Quantum Processor" 100).
      split; [reflexivity|simpl; lia].
Defined.

End InventoryFacts.

(** * Properties of the order service *)

Module OrderFacts.
Import OrderService.
Import InventoryFacts.

Lemma accepted_order_inv req :
  accepted_order req →
  ∃ pid q, req = mkOrderRequest (Some pid) (Some q) ∧ pid ≠ "" ∧ q ≠ 0.
Proof.
  destruct req as [[pid|] [q|]]; unfold accepted_order; simpl; try done.
  intros [? ?]. by exists pid, q.
Qed.

Lemma post_orders_not_accepted req env w :
  ¬ accepted_order req → post_orders req env w = (w, Some missing_fields).
Proof.
  destruct req as [[pid|] [q|]]; unfold accepted_order, post_orders; simpl;
    try done.
  intros Hn.
  destruct (decide (pid = "")) as [->|?]; [done|].
  rewrite bool_decide_eq_false_2 by done.
  destruct (Z.eqb_spec q 0) as [->|?]; [done|].
  exfalso. by apply Hn.
Qed.

(** ** One saga, step by step *)

Section Saga.
Context (pid : string) (q : Z) (env : Env) (w : World).
Hypothesis Hpid : pid ≠ "".
Hypothesis Hq : q ≠ 0.

Let req := mkOrderRequest (Some pid) (Some q).
Let oid := new_id env.
Let pending := mkOrder oid pid q PENDING (now env).
Let call :=
  Inventory.deduct (Inventory.mkDeductBody (Some pid) (Some q) (Some oid))
    (inventory w).
Let answer := axios_post TIMEOUT (latency env + Inventory.delay call.2) call.2.

Lemma post_orders_taken :
  is_Some (order (orders w) !! oid) → post_orders req env w = (w, None).
Proof.
  intros [o Ho]. unfold post_orders, req, order_create. simpl.
  rewrite bool_decide_eq_false_2 by done.
  destruct (Z.eqb_spec q 0); [done|]. simpl. fold oid. by rewrite Ho.
Qed.

Hypothesis Hfresh : order (orders w) !! oid = None.

Lemma post_orders_unfold :
  post_orders req env w =
  match answer with
  | AxiosResponse status _ =>
      if status =? 200
      then (mkWorld (settled pid q env w CONFIRMED) call.1,
            Some (mkReply 201 (OrderBody (with_status pending CONFIRMED))))
      else (mkWorld (settled pid q env w FAILED) call.1,
            Some (mkReply 503 (FailedBody inventory_issue oid FAILED)))
  | AxiosError ecode =>
      (mkWorld (settled pid q env w FAILED) call.1,
       Some (mkReply 503 (FailedBody (error_message ecode) oid FAILED)))
  end.
Proof.
  unfold post_orders, req, order_create. simpl.
  rewrite bool_decide_eq_false_2 by done.
  destruct (Z.eqb_spec q 0); [done|]. simpl. fold oid. rewrite Hfresh.
  unfold answer, call.
  destruct (Inventory.deduct _ _) as [inv r]. simpl.
  destruct (axios_post _ _ _) as [status data|ecode].
  - destruct (status =? 200).
    + unfold order_update. simpl. by rewrite lookup_insert_eq.
    + unfold on_error, order_update. simpl. by rewrite lookup_insert_eq.
  - unfold on_error, order_update. simpl. by rewrite lookup_insert_eq.
Qed.

Lemma post_orders_timeout :
  TIMEOUT ≤ latency env + Inventory.delay call.2 →
  post_orders req env w
  = (mkWorld (settled pid q env w FAILED) call.1,
     Some (mkReply 503 (FailedBody timed_out oid FAILED))).
Proof.
  intros Hlate. rewrite post_orders_unfold. unfold answer, axios_post.
  by destruct (Z.leb_spec TIMEOUT (latency env + Inventory.delay call.2));
    [|lia].
Qed.

Lemma post_orders_ok :
  latency env + Inventory.delay call.2 < TIMEOUT →
  Inventory.status call.2 = 200 →
  post_orders req env w
  = (mkWorld (settled pid q env w CONFIRMED) call.1,
     Some (mkReply 201 (OrderBody (with_status pending CONFIRMED)))).
Proof.
  intros Hquick Hst. rewrite post_orders_unfold. unfold answer, axios_post.
  destruct (Z.leb_spec TIMEOUT (latency env + Inventory.delay call.2));
    [lia|].
  by rewrite Hst.
Qed.

Lemma post_orders_refused :
  latency env + Inventory.delay call.2 < TIMEOUT →
  Inventory.status call.2 = 400 →
  post_orders req env w
  = (mkWorld (settled pid q env w FAILED) call.1,
     Some (mkReply 503 (FailedBody inventory_issue oid FAILED))).
Proof.
  intros Hquick Hst. rewrite post_orders_unfold. unfold answer, axios_post.
  destruct (Z.leb_spec TIMEOUT (latency env + Inventory.delay call.2));
    [lia|].
  by rewrite Hst.
Qed.
End Saga.

(** The handler of the inventory service answers 200 or 400. *)
Lemma inventory_status req db :
  Inventory.status (Inventory.deduct req db).2 = 200
  ∨ Inventory.status (Inventory.deduct req db).2 = 400.
Proof. destruct (deduct_outcome req db); auto. Qed.

Lemma error_message_timed_out ecode :
  error_message ecode = timed_out ↔ ecode = Some "ECONNABORTED".
Proof.
  unfold error_message. case_bool_decide; [done|].
  split; [|done]. by intros [=].
Qed.

(** ** Timeouts *)

(** C4. Timeout classification.  When the reply of the deduction handler
    needs more than the coordinator's deadline of 2000 ms, whatever that
    reply is, the order is in state FAILED, the coordinator answers 503
    with the reason "Order processing timed out waiting for inventory",
    the order identifier and the status FAILED.  That reason differs from
    the reason given for the other failures and is chosen for no error
    code but the timeout's.  What the handler did to the inventory stays
    done. *)
Theorem timeout_classification (pid : string) (q : Z) (env : Env)
    (w : World) :
  pid ≠ "" → q ≠ 0 → order (orders w) !! new_id env = None →
  let call :=
    Inventory.deduct
      (Inventory.mkDeductBody (Some pid) (Some q) (Some (new_id env)))
      (inventory w) in
  TIMEOUT < latency env + Inventory.delay call.2 →
  let result := post_orders (mkOrderRequest (Some pid) (Some q)) env w in
  TIMEOUT = 2000
  ∧ result.2
    = Some (mkReply 503 (FailedBody timed_out (new_id env) FAILED))
  ∧ order (orders result.1) !! new_id env
    = Some (mkOrder (new_id env) pid q FAILED (now env))
  ∧ inventory result.1 = call.1
  ∧ timed_out ≠ inventory_issue
  ∧ (∀ ecode, error_message ecode = timed_out
              ↔ ecode = Some "ECONNABORTED").
Proof.
  intros Hpid Hq Hfresh call Hlate result.
  assert (Hres : result
                 = (mkWorld (settled pid q env w FAILED) call.1,
                    Some (mkReply 503
                            (FailedBody timed_out (new_id env) FAILED)))).
  { unfold result. apply post_orders_timeout; try done. fold call. lia. }
  rewrite Hres. simpl. split_and!; try done.
  - apply lookup_insert_eq.
  - apply error_message_timed_out.
Qed.

Lemma timeout_classification_witness :
  let env := mkEnv "o1" 0 2001 in
  let result := post_orders (mkOrderRequest (Some "p1") (Some 1)) env
                  world_100 in
  TIMEOUT = 2000
  ∧ result.2 = Some (mkReply 503 (FailedBody timed_out "o1" FAILED))
  ∧ order (orders result.1) !! "o1"
    = Some (mkOrder "o1" "p1" 1 FAILED 0)
  ∧ inventory result.1
    = (Inventory.deduct
         (Inventory.mkDeductBody (Some "p1") (Some 1) (Some "o1"))
         (inventory world_100)).1
  ∧ timed_out ≠ inventory_issue
  ∧ (∀ ecode, error_message ecode = timed_out
              ↔ ecode = Some "ECONNABORTED").
Proof.
  apply (timeout_classification "p1" 1 (mkEnv "o1" 0 2001) world_100).
  - done.
  - done.
  - reflexivity.
  - vm_compute. reflexivity.
Defined.

(** A failure that is reported within the deadline carries the other
    reason. *)
Lemma business_failure_reason pid q env w :
  pid ≠ "" → q ≠ 0 → order (orders w) !! new_id env = None →
  let call :=
    Inventory.deduct
      (Inventory.mkDeductBody (Some pid) (Some q) (Some (new_id env)))
      (inventory w) in
  latency env + Inventory.delay call.2 < TIMEOUT →
  Inventory.status call.2 ≠ 200 →
  (post_orders (mkOrderRequest (Some pid) (Some q)) env w).2
  = Some (mkReply 503 (FailedBody inventory_issue (new_id env) FAILED)).
Proof.
  intros Hpid Hq Hfresh call Hquick Hst.
  destruct (inventory_status
              (Inventory.mkDeductBody (Some pid) (Some q) (Some (new_id env)))
              (inventory w)) as [H200|H400]; [done|].
  by rewrite post_orders_refused.
Qed.

(** ** Confirmation *)

(** C5. Successful confirmation.  When the deduction handler answers
    "Stock deducted" or "Stock already deducted (Idempotent)" within the
    deadline, the order created as PENDING is moved to CONFIRMED and the
    confirmed order is returned with status 201.  For a product whose
    stock is 100 and an order of quantity 1 under a fresh identifier, the
    order ends CONFIRMED and the stock is 99. *)
Theorem order_confirmed :
  (∀ (pid : string) (q : Z) (env : Env) (w : World),
     pid ≠ "" → q ≠ 0 → order (orders w) !! new_id env = None →
     let call :=
       Inventory.deduct
         (Inventory.mkDeductBody (Some pid) (Some q) (Some (new_id env)))
         (inventory w) in
     call.2 = Inventory.deducted q ∨ call.2 = Inventory.already_deducted →
     latency env + Inventory.delay call.2 < TIMEOUT →
     let result := post_orders (mkOrderRequest (Some pid) (Some q)) env w in
     result.2
     = Some (mkReply 201
               (OrderBody (mkOrder (new_id env) pid q CONFIRMED (now env))))
     ∧ order (orders result.1) !! new_id env
       = Some (mkOrder (new_id env) pid q CONFIRMED (now env))
     ∧ journal (orders result.1)
       = Updated (new_id env) CONFIRMED
         :: Created (mkOrder (new_id env) pid q PENDING (now env))
         :: journal (orders w)
     ∧ inventory result.1 = call.1)
  ∧ (∀ (pid : string) (env : Env) (w : World) (p : Inventory.Product),
       pid ≠ "" → new_id env ≠ "" →
       order (orders w) !! new_id env = None →
       new_id env ∉ Inventory.idempotencyLog (inventory w) →
       Inventory.product (inventory w) !! pid = Some p →
       Inventory.stock p = 100 →
       latency env < TIMEOUT →
       let result := post_orders (mkOrderRequest (Some pid) (Some 1)) env w in
       status <$> order (orders result.1) !! new_id env = Some CONFIRMED
       ∧ Inventory.stock <$> Inventory.product (inventory result.1) !! pid
         = Some 99).
Proof.
  split.
  - intros pid q env w Hpid Hq Hfresh call Hcall Hquick result.
    assert (Hst : Inventory.status call.2 = 200)
      by (by destruct Hcall as [-> | ->]).
    unfold result. rewrite post_orders_ok by done. simpl.
    split_and!; try done. apply lookup_insert_eq.
  - intros pid env w p Hpid Hoid Hfresh Hlog Hp H100 Hquick result.
    assert (Hcall : Inventory.deduct
                      (Inventory.mkDeductBody (Some pid) (Some 1)
                         (Some (new_id env))) (inventory w)
                    = (Inventory.committed pid p 1 (new_id env) (inventory w),
                       Inventory.deducted 1)).
    { apply deduct_first; try done. lia. }
    unfold result. rewrite post_orders_ok; try done.
    + rewrite Hcall. simpl. rewrite !lookup_insert_eq. simpl.
      split; [done|]. f_equal. lia.
    + rewrite Hcall. simpl. unfold Inventory.gremlin. simpl. lia.
    + by rewrite Hcall.
Qed.

Lemma order_confirmed_witness :
  let result := post_orders (mkOrderRequest (Some "p1") (Some 1))
                  (mkEnv "o1" 0 30) world_100 in
  (result.2
   = Some (mkReply 201 (OrderBody (mkOrder "o1" "p1" 1 CONFIRMED 0)))
   ∧ order (orders result.1) !! "o1"
     = Some (mkOrder "o1" "p1" 1 CONFIRMED 0)
   ∧ journal (orders result.1)
     = Updated "o1" CONFIRMED
       :: Created (mkOrder "o1" "p1" 1 PENDING 0)
       :: journal (orders world_100)
   ∧ inventory result.1
     = (Inventory.deduct
          (Inventory.mkDeductBody (Some "p1") (Some 1) (Some "o1"))
          (inventory world_100)).1)
  ∧ (status <$> order (orders result.1) !! "o1" = Some CONFIRMED
     ∧ Inventory.stock <$> Inventory.product (inventory result.1) !! "p1"
       = Some 99).
Proof.
  split.
  - apply (proj1 order_confirmed "p1" 1 (mkEnv "o1" 0 30) world_100).
    + done.
    + done.
    + reflexivity.
    + left. vm_compute. reflexivity.
    + vm_compute. reflexivity.
  - apply (proj2 order_confirmed "p1" (mkEnv "o1" 0 30) world_100
             (Inventory.mkProduct "p1" "Quantum Processor" 100)).
    + done.
    + done.
    + reflexivity.
    + simpl. set_solver.
    + reflexivity.
    + reflexivity.
    + simpl. unfold TIMEOUT. lia.
Defined.

(** ** The Gremlin *)

(** C7. The fault-injection delay is a frame effect.  The handler waits
    only when it has committed the transaction, and then only when the
    requested quantity is 13, for 5000 ms.  The database the handler
    leaves is the one its transaction left, for every quantity.  An order
    of quantity 13 on a product with enough stock therefore ends with its
    row stored as FAILED and the reply 503 with the timeout reason, the
    deadline of 2000 ms being shorter than the delay, while the stored
    stock is [stock p - 13] and the log holds the order's identifier. *)
Theorem gremlin_frame :
  (∀ req db,
     Inventory.delay (Inventory.deduct req db).2 ≠ 0 →
     Inventory.quantity req = Some 13
     ∧ (Inventory.deduct req db).2
       = Inventory.mkReply 200 (Inventory.SuccessBody "Stock deducted") 5000
     ∧ ∃ pid oid p,
         Inventory.productId req = Some pid
         ∧ Inventory.orderId req = Some oid
         ∧ Inventory.product db !! pid = Some p
         ∧ Inventory.product (Inventory.deduct req db).1
           = <[pid := Inventory.mkProduct (Inventory.id p) (Inventory.name p)
                        (Inventory.stock p - 13)]> (Inventory.product db)
         ∧ Inventory.idempotencyLog (Inventory.deduct req db).1
           = {[oid]} ∪ Inventory.idempotencyLog db)
  ∧ (∀ pid q oid db,
       pid ≠ "" → q ≠ 0 → oid ≠ "" →
       oid ∉ Inventory.idempotencyLog db →
       (Inventory.deduct
          (Inventory.mkDeductBody (Some pid) (Some q) (Some oid)) db).1
       = (Inventory.transaction (Inventory.deduct_callback pid q oid) db).1)
  ∧ Inventory.GREMLIN_QUANTITY = 13
  ∧ Inventory.GREMLIN_DELAY = 5000
  ∧ TIMEOUT < Inventory.GREMLIN_DELAY
  ∧ (∀ pid env w p,
       pid ≠ "" → new_id env ≠ "" →
       order (orders w) !! new_id env = None →
       new_id env ∉ Inventory.idempotencyLog (inventory w) →
       Inventory.product (inventory w) !! pid = Some p →
       13 ≤ Inventory.stock p →
       0 ≤ latency env →
       let result := post_orders (mkOrderRequest (Some pid) (Some 13)) env w in
       result.2
       = Some (mkReply 503
                 (FailedBody "Order processing timed out waiting for inventory"
                    (new_id env) FAILED))
       ∧ order (orders result.1) !! new_id env
         = Some (mkOrder (new_id env) pid 13 FAILED (now env))
       ∧ journal (orders result.1)
         = Updated (new_id env) FAILED
           :: Created (mkOrder (new_id env) pid 13 PENDING (now env))
           :: journal (orders w)
       ∧ Inventory.product (inventory result.1)
         = <[pid := Inventory.mkProduct (Inventory.id p) (Inventory.name p)
                      (Inventory.stock p - 13)]>
             (Inventory.product (inventory w))
       ∧ Inventory.product (inventory result.1) !! pid
         = Some (Inventory.mkProduct (Inventory.id p) (Inventory.name p)
                   (Inventory.stock p - 13))
       ∧ Inventory.idempotencyLog (inventory result.1)
         = {[new_id env]} ∪ Inventory.idempotencyLog (inventory w)).
Proof.
  split_and!.
  - intros req db.
    destruct (deduct_outcome req db) as [| | |pid q oid p Hreq Hlog Hp Hle];
      try done.
    simpl. unfold Inventory.gremlin. intros Hdelay.
    destruct (Z.eqb_spec q Inventory.GREMLIN_QUANTITY) as [->|]; [|done].
    subst req. simpl. split_and!; try done.
    by exists pid, oid, p.
  - intros pid q oid db Hpid Hq Hoid Hlog.
    rewrite deduct_checked, decide_False by done.
    by destruct (Inventory.transaction _ _) as [db' [e|[]]].
  - done.
  - done.
  - done.
  - intros pid env w p Hpid Hoid Hfresh Hlog Hp Hle Hlat result.
    assert (Hcall : Inventory.deduct
                      (Inventory.mkDeductBody (Some pid) (Some 13)
                         (Some (new_id env))) (inventory w)
                    = (Inventory.committed pid p 13 (new_id env) (inventory w),
                       Inventory.deducted 13))
      by by apply deduct_first.
    assert (Hres : result
                   = (mkWorld (settled pid 13 env w FAILED)
                        (Inventory.committed pid p 13 (new_id env)
                           (inventory w)),
                      Some (mkReply 503
                              (FailedBody timed_out (new_id env) FAILED)))).
    { unfold result. rewrite post_orders_timeout; try done.
      - by rewrite Hcall.
      - rewrite Hcall. simpl. unfold TIMEOUT.
        change (Inventory.gremlin 13) with 5000. lia. }
    rewrite Hres. simpl. split_and!; try done.
    + apply lookup_insert_eq.
    + apply lookup_insert_eq.
Qed.

Lemma gremlin_frame_witness :
  (let r := Inventory.deduct
              (Inventory.mkDeductBody (Some "p1") (Some 13) (Some "o1"))
              Inventory.db_100 in
   Inventory.delay r.2 = 5000
   ∧ Inventory.product r.1 !! "p1"
     = Some (Inventory.mkProduct "p1" "Quantum Processor" 87))
  ∧ (let result := post_orders (mkOrderRequest (Some "p1") (Some 13))
                     (mkEnv "o1" 0 30) world_100 in
     result.2
     = Some (mkReply 503
               (FailedBody "Order processing timed out waiting for inventory"
                  "o1" FAILED))
     ∧ order (orders result.1) !! "o1"
       = Some (mkOrder "o1" "p1" 13 FAILED 0)
     ∧ journal (orders result.1)
       = [Updated "o1" FAILED; Created (mkOrder "o1" "p1" 13 PENDING 0)]
     ∧ Inventory.product (inventory result.1) !! "p1"
       = Some (Inventory.mkProduct "p1" "Quantum Processor" 87)
     ∧ "o1" ∈ Inventory.idempotencyLog (inventory result.1)).
Proof.
  destruct gremlin_frame as (Honly & _ & _ & _ & _ & Hsaga). split.
  - destruct (Honly (Inventory.mkDeductBody (Some "p1") (Some 13) (Some "o1"))
                Inventory.db_100)
      as (_ & Hreply & pid & oid & p & Hpid & Hoid & Hp & Hrows & _).
    + vm_compute. discriminate.
    + simpl in Hpid. injection Hpid as <-.
      assert (Hp' : Some (Inventory.mkProduct "p1" "Quantum Processor" 100)
                    = Some p) by exact Hp.
      injection Hp' as <-. simpl.
      split; [by rewrite Hreply|]. rewrite Hrows. apply lookup_insert_eq.
  - destruct (Hsaga "p1" (mkEnv "o1" 0 30) world_100
                (Inventory.mkProduct "p1" "Quantum Processor" 100))
      as (Hreply & Hrow & Hjournal & _ & Hstock & Hlog).
    + done.
    + done.
    + reflexivity.
    + simpl. set_solver.
    + reflexivity.
    + simpl. lia.
    + simpl. lia.
    + simpl in *. split_and!.
      * exact Hreply.
      * exact Hrow.
      * exact Hjournal.
      * exact Hstock.
      * rewrite Hlog. apply elem_of_union_l. by apply elem_of_singleton.
Defined.

(** After such a timeout the client may replay the deduction with the
    order's identifier: the handler answers "Stock already deducted
    (Idempotent)" and the inventory is left as it is. *)
Lemma retry_after_timeout pid env w p :
  pid ≠ "" → new_id env ≠ "" →
  order (orders w) !! new_id env = None →
  new_id env ∉ Inventory.idempotencyLog (inventory w) →
  Inventory.product (inventory w) !! pid = Some p →
  13 ≤ Inventory.stock p → 0 ≤ latency env →
  let w' := (post_orders (mkOrderRequest (Some pid) (Some 13)) env w).1 in
  Inventory.deduct
    (Inventory.mkDeductBody (Some pid) (Some 13) (Some (new_id env)))
    (inventory w')
  = (inventory w', Inventory.already_deducted).
Proof.
  intros Hpid Hoid Hfresh Hlog Hp Hle Hlat w'.
  assert (Hcall : Inventory.deduct
                    (Inventory.mkDeductBody (Some pid) (Some 13)
                       (Some (new_id env))) (inventory w)
                  = (Inventory.committed pid p 13 (new_id env) (inventory w),
                     Inventory.deducted 13))
    by by apply deduct_first.
  assert (Hw' : inventory w'
                = Inventory.committed pid p 13 (new_id env) (inventory w)).
  { unfold w'. rewrite post_orders_timeout; try done.
    - by rewrite Hcall.
    - rewrite Hcall. simpl. unfold TIMEOUT.
      change (Inventory.gremlin 13) with 5000. lia. }
  apply deduct_replay; try done. rewrite Hw'. simpl. set_solver.
Qed.

(** ** Order identifier in failures *)

(** The rejection of a body without [quantity] carries none. *)
Lemma invalid_request_without_orderId :
  let result := post_orders (mkOrderRequest (Some "p1") None)
                  (mkEnv "o1" 0 30) world_100 in
  result.2 = Some (mkReply 400 (ErrorBody "Missing productId or quantity"))
  ∧ (reply_orderId <$> result.2) = Some None
  ∧ result.1 = world_100
  ∧ ¬ failures_carry_orderId.
Proof.
  split_and!; [by vm_compute..|].
  intros Hcarry.
  destruct (Hcarry (mkOrderRequest (Some "p1") None) (mkEnv "o1" 0 30)
              world_100 missing_fields) as [oid Hoid]; [done|done|].
  discriminate Hoid.
Qed.

(** C9, as the code has it.  A reply of [POST /orders] that is not the
    201 of a confirmed order is one of two.  Either the body lacked
    [productId] or [quantity]: the reply is 400 "Missing productId or
    quantity", it carries no order identifier, and no order was created.
    Or an order was created: the reply is 503 and carries a reason, the
    identifier of that order, which is the identifier that was sent to
    the inventory service as idempotency key, and the status FAILED. *)
Theorem failure_replies_orderId (req : OrderRequest) (env : Env)
    (w : World) (r : Reply) :
  (post_orders req env w).2 = Some r → code r ≠ 201 →
  (¬ accepted_order req
   ∧ r = missing_fields ∧ reply_orderId r = None
   ∧ (post_orders req env w).1 = w)
  ∨ (∃ pid q reason,
       req = mkOrderRequest (Some pid) (Some q)
       ∧ r = mkReply 503 (FailedBody reason (new_id env) FAILED)
       ∧ reply_orderId r = Some (new_id env)
       ∧ order (orders (post_orders req env w).1) !! new_id env
         = Some (mkOrder (new_id env) pid q FAILED (now env))
       ∧ inventory (post_orders req env w).1
         = (Inventory.deduct
              (Inventory.mkDeductBody (Some pid) (Some q)
                 (Some (new_id env))) (inventory w)).1).
Proof.
  intros Hr Hcode.
  destruct (decide (accepted_order req)) as [Hacc|Hacc].
  - right.
    destruct (accepted_order_inv _ Hacc) as (pid & q & -> & Hpid & Hq).
    destruct (order (orders w) !! new_id env) as [o|] eqn:Hfresh.
    { rewrite post_orders_taken in Hr by eauto. done. }
    rewrite post_orders_unfold in * by done.
    destruct (axios_post _ _ _) as [st data|ecode].
    + destruct (st =? 200); simpl in *; simplify_eq; try done.
      exists pid, q, inventory_issue. split_and!; try done.
      apply lookup_insert_eq.
    + simpl in *. simplify_eq.
      exists pid, q, (error_message ecode). split_and!; try done.
      apply lookup_insert_eq.
  - left. rewrite post_orders_not_accepted in * by done.
    simpl in *. by simplify_eq.
Qed.

Lemma failure_replies_orderId_witness :
  let req := mkOrderRequest (Some "p1") (Some 101) in
  let env := mkEnv "o1" 0 30 in
  let r := mkReply 503 (FailedBody inventory_issue "o1" FAILED) in
  (¬ accepted_order req
   ∧ r = missing_fields ∧ reply_orderId r = None
   ∧ (post_orders req env world_100).1 = world_100)
  ∨ (∃ pid q reason,
       req = mkOrderRequest (Some pid) (Some q)
       ∧ r = mkReply 503 (FailedBody reason (new_id env) FAILED)
       ∧ reply_orderId r = Some (new_id env)
       ∧ order (orders (post_orders req env world_100).1) !! new_id env
         = Some (mkOrder (new_id env) pid q FAILED (now env))
       ∧ inventory (post_orders req env world_100).1
         = (Inventory.deduct
              (Inventory.mkDeductBody (Some pid) (Some q)
                 (Some (new_id env))) (inventory world_100)).1).
Proof.
  apply (failure_replies_orderId
           (mkOrderRequest (Some "p1") (Some 101)) (mkEnv "o1" 0 30)
           world_100
           (mkReply 503 (FailedBody inventory_issue "o1" FAILED))).
  - vm_compute. reflexivity.
  - simpl. lia.
Defined.

(** ** Replies and stock across the system *)

(** The handler answers whenever the identifier of the new row is not
    taken. *)
Lemma post_orders_replies req env w :
  order (orders w) !! new_id env = None →
  is_Some (post_orders req env w).2.
Proof.
  intros Hfresh.
  destruct (decide (accepted_order req)) as [Hacc|Hacc];
    [|by rewrite post_orders_not_accepted].
  destruct (accepted_order_inv _ Hacc) as (pid & q & -> & Hpid & Hq).
  rewrite post_orders_unfold by done.
  destruct (axios_post _ _ _) as [st data|ecode]; [destruct (st =? 200)|];
    by eexists.
Qed.

(** What one [POST /orders] does to the inventory. *)
Lemma post_orders_inventory req env w :
  inventory (post_orders req env w).1 = inventory w
  ∨ ∃ req', inventory (post_orders req env w).1
            = (Inventory.deduct req' (inventory w)).1.
Proof.
  destruct (decide (accepted_order req)) as [Hacc|Hacc];
    [|left; by rewrite post_orders_not_accepted].
  destruct (accepted_order_inv _ Hacc) as (pid & q & -> & Hpid & Hq).
  destruct (order (orders w) !! new_id env) as [o|] eqn:Hfresh.
  { left. rewrite post_orders_taken; eauto. }
  right. eexists. rewrite post_orders_unfold by done.
  destruct (axios_post _ _ _) as [st data|ecode]; [destruct (st =? 200)|];
    done.
Qed.

(** No request to either service makes a stock count negative. *)
Lemma run_stock_nonneg rs w :
  Inventory.stock_nonneg (inventory w) →
  Inventory.stock_nonneg (inventory (System.run rs w)).
Proof.
  revert w. induction rs as [|r rs IH]; intros w Hw; [done|].
  simpl. apply IH. destruct r as [|req env|req|ids]; simpl; try done.
  - destruct (post_orders_inventory req env w) as [->|[req' ->]]; [done|].
    by apply deduct_nonneg.
  - by apply deduct_nonneg.
  - by apply seedProducts_nonneg.
Qed.

(** ** Terminal orders *)

Lemma sagas_app j1 j2 : sagas j1 → sagas j2 → sagas (j1 ++ j2)%list.
Proof. induction 1; simpl; [done|]. intros. constructor; auto. Qed.

(** What one [POST /orders] does to the [order] table. *)
Lemma post_orders_writes req env w :
  let w' := (post_orders req env w).1 in
  orders w' = orders w
  ∨ ∃ o s,
      id o = new_id env ∧ status o = PENDING ∧ terminal s
      ∧ order (orders w) !! id o = None
      ∧ journal (orders w') = Updated (id o) s :: Created o :: journal (orders w)
      ∧ order (orders w') = <[id o := with_status o s]> (order (orders w)).
Proof.
  simpl.
  destruct (decide (accepted_order req)) as [Hacc|Hacc];
    [|left; by rewrite post_orders_not_accepted].
  destruct (accepted_order_inv _ Hacc) as (pid & q & -> & Hpid & Hq).
  destruct (order (orders w) !! new_id env) as [o|] eqn:Hfresh.
  { left. rewrite post_orders_taken; eauto. }
  right. exists (mkOrder (new_id env) pid q PENDING (now env)).
  rewrite post_orders_unfold by done.
  destruct (axios_post _ _ _) as [st data|ecode];
    [destruct (st =? 200)|]; simpl;
    (eexists; split_and!; [done|done| |done|done|by rewrite insert_insert_eq]);
    unfold terminal; auto.
Qed.

Lemma handle_keeps_rows r w oid o :
  order (orders w) !! oid = Some o →
  order (orders (System.handle r w)) !! oid = Some o.
Proof.
  intros Ho. destruct r as [|req env| |]; simpl; try done.
  destruct (post_orders_writes req env w)
    as [->|(o' & s & _ & _ & _ & Hnew & _ & ->)]; [done|].
  rewrite lookup_insert_ne; [done|]. intros Heq. congruence.
Qed.

Lemma handle_journal r w :
  ∃ j, journal (orders (System.handle r w)) = (j ++ journal (orders w))%list
       ∧ sagas j.
Proof.
  destruct r as [|req env| |]; simpl; try (exists []; split; [done|constructor]).
  destruct (post_orders_writes req env w)
    as [->|(o & s & _ & Hpending & Hterm & _ & -> & _)].
  - exists []. split; [done|constructor].
  - exists [Updated (id o) s; Created o]. split; [done|].
    constructor; [done|done|constructor].
Qed.

(** C8. Terminal finality.  A [POST /orders] either writes nothing to the
    [order] table or creates one order as PENDING and then executes
    exactly one more statement, which moves that order to CONFIRMED or to
    FAILED.  Over any sequence of requests to the two services, an order
    that is CONFIRMED or FAILED keeps its row as it is, and the
    statements added to the journal are such sagas, one creation and one
    terminal update each. *)
Theorem terminal_finality :
  (∀ req env w,
     let w' := (post_orders req env w).1 in
     orders w' = orders w
     ∨ ∃ o s,
         id o = new_id env ∧ status o = PENDING ∧ terminal s
         ∧ order (orders w) !! id o = None
         ∧ journal (orders w')
           = Updated (id o) s :: Created o :: journal (orders w)
         ∧ order (orders w') = <[id o := with_status o s]> (order (orders w)))
  ∧ (∀ rs w oid o,
       order (orders w) !! oid = Some o → terminal (status o) →
       order (orders (System.run rs w)) !! oid = Some o)
  ∧ (∀ rs w,
       ∃ j, journal (orders (System.run rs w))
            = (j ++ journal (orders w))%list
            ∧ sagas j).
Proof.
  split_and!.
  - apply post_orders_writes.
  - intros rs. induction rs as [|r rs IH]; intros w oid o Ho Hterm; [done|].
    simpl. apply IH; [|done]. by apply handle_keeps_rows.
  - intros rs. induction rs as [|r rs IH]; intros w.
    + exists []. split; [done|constructor].
    + simpl. destruct (IH (System.handle r w)) as (j2 & -> & Hj2).
      destruct (handle_journal r w) as (j1 & -> & Hj1).
      exists (j2 ++ j1)%list. split; [by rewrite (assoc_L app)|].
      by apply sagas_app.
Qed.

(** An order that timed out stays FAILED when the client replays the
    deduction and places further orders. *)
Lemma terminal_finality_witness :
  let w1 := System.run
              [System.PostOrders (mkOrderRequest (Some "p1") (Some 13))
                 (mkEnv "o1" 0 30)] world_100 in
  let w2 := System.run
              [System.PostDeduct
                 (Inventory.mkDeductBody (Some "p1") (Some 13) (Some "o1"));
               System.PostOrders (mkOrderRequest (Some "p1") (Some 1))
                 (mkEnv "o2" 1 30);
               System.GetOrders] w1 in
  order (orders w1) !! "o1" = Some (mkOrder "o1" "p1" 13 FAILED 0)
  ∧ order (orders w2) !! "o1" = Some (mkOrder "o1" "p1" 13 FAILED 0).
Proof.
  intros w1 w2. destruct terminal_finality as (_ & Hkeep & _).
  split; [vm_compute; reflexivity|].
  apply (Hkeep _ w1).
  - vm_compute. reflexivity.
  - right. reflexivity.
Defined.

(** ** Negative quantities *)



End OrderFacts.

(** * Further properties of the inventory service *)

Module InventoryMore.
Import Inventory.
Import Ledger.
Import InventoryFacts.

(** The handler as one case distinction. *)
Lemma deduct_eval pid q oid db :
  deduct (mkDeductBody (Some pid) (Some q) (Some oid)) db =
  if bool_decide (pid = "") || (q =? 0) || bool_decide (oid = "")
  then (db, missing_fields)
  else if decide (oid ∈ idempotencyLog db) then (db, already_deducted)
  else match product db !! pid with
       | None => (db, rejected insufficient)
       | Some p =>
           if stock p <? q then (db, rejected insufficient)
           else (committed pid p q oid db, deducted q)
       end.
Proof.
  unfold deduct. simpl. destruct (_ || _); [done|].
  destruct (decide (oid ∈ idempotencyLog db)); [done|].
  rewrite transaction_cases.
  destruct (product db !! pid) as [p|]; [|done].
  destruct (stock p <? q); [done|]. by rewrite decide_False.
Qed.

Lemma with_stock_same p : with_stock p (stock p) = p.
Proof. by destruct p. Qed.

(** What the handler does with a complete body. *)
Lemma deduct_accepted req db :
  accepted req →
  ∃ pid q oid,
    req = mkDeductBody (Some pid) (Some q) (Some oid)
    ∧ pid ≠ "" ∧ q ≠ 0 ∧ oid ≠ ""
    ∧ ((oid ∈ idempotencyLog db ∧ deduct req db = (db, already_deducted))
       ∨ ((oid ∉ idempotencyLog db)
          ∧ (product db !! pid = None
             ∨ ∃ p, product db !! pid = Some p ∧ stock p < q)
          ∧ deduct req db = (db, rejected insufficient))
       ∨ ((oid ∉ idempotencyLog db)
          ∧ ∃ p, product db !! pid = Some p ∧ q ≤ stock p
                 ∧ deduct req db = (committed pid p q oid db, deducted q))).
Proof.
  intros Hacc.
  destruct (accepted_inv _ Hacc) as (pid & q & oid & -> & Hpid & Hq & Hoid).
  exists pid, q, oid. split_and!; try done.
  destruct (decide (oid ∈ idempotencyLog db)) as [Hin|Hout].
  { left. split; [done|]. by apply deduct_replay. }
  right. destruct (product db !! pid) as [p|] eqn:Hp.
  - destruct (Z.lt_ge_cases (stock p) q).
    + left. split_and!; [done|eauto|by eapply deduct_short].
    + right. split; [done|]. exists p. split_and!; try done.
      by apply deduct_first.
  - left. split_and!; [done|eauto|by apply deduct_unknown].
Qed.

(** X1. A body with a field that is missing, an empty identifier or the
    quantity 0 is answered 400 "Missing productId, quantity, or orderId",
    and no other body is.  The check comes first: it rejects such a body
    also when its identifier is in the idempotency log already, and the
    database is not touched. *)
Theorem deduct_missing_fields (req : DeductBody) (db : Db) :
  ((deduct req db).2 = missing_fields ↔ ¬ accepted req)
  ∧ (¬ accepted req → (deduct req db).1 = db)
  ∧ (quantity req = Some 0 → deduct req db = (db, missing_fields)).
Proof.
  split_and!.
  - split.
    + intros Hr Hacc.
      destruct (deduct_accepted req db Hacc)
        as (pid & q & oid & _ & _ & _ & _
            & [[_ He]|[(_ & _ & He)|(_ & p & _ & _ & He)]]);
        rewrite He in Hr; discriminate Hr.
    + intros Hn. by rewrite deduct_not_accepted.
  - intros Hn. by rewrite deduct_not_accepted.
  - intros Hq. apply deduct_not_accepted. unfold accepted. rewrite Hq.
    destruct (productId req), (orderId req); tauto.
Qed.

(** X2. The handler answers 200 exactly when the request is complete
    and its identifier is in the idempotency log once the handler is
    done; in every other case it answers 400. *)
Theorem deduct_ok_iff_logged (req : DeductBody) (db : Db) :
  (status (deduct req db).2 = 200
   ↔ accepted req
     ∧ ∃ oid, orderId req = Some oid
              ∧ oid ∈ idempotencyLog (deduct req db).1)
  ∧ (status (deduct req db).2 = 200 ∨ status (deduct req db).2 = 400).
Proof.
  destruct (decide (accepted req)) as [Hacc|Hn].
  - destruct (deduct_accepted req db Hacc)
      as (pid & q & oid & -> & _ & _ & _
          & [[Hin He]|[(Hout & _ & He)|(Hout & p & _ & _ & He)]]);
      rewrite He; simpl.
    + split; [|by left]. split; [|done]. intros _. split; [done|].
      by exists oid.
    + split; [|by right]. split; [done|].
      intros (_ & oid' & [= <-] & Hin). done.
    + split; [|by left]. split; [|done]. intros _. split; [done|].
      exists oid. split; [done|]. set_solver.
  - rewrite deduct_not_accepted by done. simpl.
    split; [|by right]. split; [done|]. by intros [? _].
Qed.

(** ** What a deduction leaves alone *)

Lemma deduct_log req db :
  idempotencyLog db ⊆ idempotencyLog (deduct req db).1
  ∧ idempotencyLog (deduct req db).1
    ⊆ idempotencyLog db ∪ order_ids [req].
Proof.
  destruct (deduct_outcome req db) as [| | |pid q oid p -> _ _ _]; simpl.
  1-3: split; [done|apply union_subseteq_l].
  unfold order_ids. simpl. rewrite union_empty_r_L.
  split; [apply union_subseteq_r|]. by rewrite (comm_L (∪)).
Qed.

Lemma deduct_rows req db k p :
  product db !! k = Some p →
  ∃ p', product (deduct req db).1 !! k = Some p'
        ∧ id p' = id p ∧ name p' = name p
        ∧ (productId req ≠ Some k → p' = p).
Proof.
  intros Hk.
  destruct (deduct_outcome req db) as [| | |pid q oid p0 -> Hout Hp Hle];
    try by exists p.
  simpl. destruct (decide (pid = k)) as [->|Hne].
  - rewrite lookup_insert_eq. simplify_eq. eexists. split_and!; try done.
  - rewrite lookup_insert_ne by done. exists p. split_and!; done.
Qed.

Lemma deduct_dom req db :
  dom (product (deduct req db).1) = dom (product db).
Proof.
  destruct (deduct_outcome req db) as [| | |pid q oid p0 -> Hout Hp Hle];
    try done.
  simpl. by apply dom_insert_lookup_L.
Qed.

Lemma order_ids_cons req reqs :
  order_ids (req :: reqs) = order_ids [req] ∪ order_ids reqs.
Proof.
  unfold order_ids. simpl. destruct (orderId req); simpl.
  - by rewrite union_empty_r_L.
  - by rewrite union_empty_l_L.
Qed.

(** X3. Serving deduction requests never adds or removes a product and
    never changes the [id] or the [name] of one; a product that no
    request names keeps its row.  The idempotency log only grows, and
    only by identifiers that the requests carry. *)
Theorem serve_frame (reqs : list DeductBody) (db : Db) :
  let db' := (serve reqs db).1 in
  dom (product db') = dom (product db)
  ∧ (∀ k p, product db !! k = Some p →
       ∃ p', product db' !! k = Some p'
             ∧ id p' = id p ∧ name p' = name p
             ∧ (Forall (λ req, productId req ≠ Some k) reqs → p' = p))
  ∧ idempotencyLog db ⊆ idempotencyLog db'
  ∧ idempotencyLog db' ⊆ idempotencyLog db ∪ order_ids reqs.
Proof.
  revert db. induction reqs as [|req reqs IH]; intros db; simpl.
  { split_and!; [done| |done|apply union_subseteq_l].
    intros k p Hk. by exists p. }
  pose proof (serve_cons req reqs db) as Hcons. simpl in Hcons.
  rewrite Hcons. simpl. clear Hcons.
  destruct (IH (deduct req db).1) as (Hdom & Hrows & Hlog1 & Hlog2).
  destruct (deduct_log req db) as [Hl1 Hl2].
  split_and!.
  - by rewrite Hdom, deduct_dom.
  - intros k p Hk.
    destruct (deduct_rows req db k p Hk) as (p1 & Hk1 & Hid1 & Hname1 & Hsame1).
    destruct (Hrows k p1 Hk1) as (p2 & Hk2 & Hid2 & Hname2 & Hsame2).
    exists p2. split_and!; [done|congruence|congruence|].
    intros Hall. apply Forall_cons in Hall as [Hreq Hall].
    rewrite Hsame2 by done. by apply Hsame1.
  - by etrans.
  - rewrite order_ids_cons, (assoc_L (∪)).
    etrans; [exact Hlog2|]. by apply union_mono_r.
Qed.

(** ** Accounting *)

Lemma is_deducted_deducted q : is_deducted (deducted q) = true.
Proof. reflexivity. Qed.

Lemma taken_other pid req r : is_deducted r = false → taken pid req r = 0.
Proof.
  intros Hr. unfold taken. rewrite Hr.
  destruct (productId req), (quantity req); try done.
  by rewrite andb_false_r.
Qed.

Lemma deduct_taken req db pid p :
  product db !! pid = Some p →
  product (deduct req db).1 !! pid
  = Some (with_stock p (stock p - taken pid req (deduct req db).2)).
Proof.
  intros Hk.
  destruct (deduct_outcome req db) as [| | |pid' q oid p0 -> Hout Hp Hle];
    try (rewrite taken_other by done; by rewrite Z.sub_0_r, with_stock_same).
  unfold taken. simpl. rewrite is_deducted_deducted, andb_true_r.
  case_bool_decide as Hpid.
  - subst pid'. rewrite lookup_insert_eq. by simplify_eq.
  - rewrite lookup_insert_ne by done.
    by rewrite Z.sub_0_r, with_stock_same.
Qed.

(** X4. Stock accounting.  After any sequence of deduction requests the
    stock of a product is its stock before, less the quantities of the
    requests for that product that were answered "Stock deducted".  When
    no stock was negative before, those quantities add up to no more
    than the stock there was. *)
Theorem stock_accounting (reqs : list DeductBody) (db : Db)
    (pid : string) (p : Product) :
  product db !! pid = Some p →
  let sold := taken_total pid reqs (serve reqs db).2 in
  product (serve reqs db).1 !! pid = Some (with_stock p (stock p - sold))
  ∧ (stock_nonneg db → sold ≤ stock p).
Proof.
  intros Hk sold.
  assert (Hrow : product (serve reqs db).1 !! pid
                 = Some (with_stock p (stock p - sold))).
  { subst sold. revert db p Hk.
    induction reqs as [|req reqs IH]; intros db p Hk.
    - simpl. by rewrite Z.sub_0_r, with_stock_same.
    - rewrite serve_cons. simpl.
      rewrite (IH _ _ (deduct_taken req db pid p Hk)).
      f_equal. unfold with_stock. simpl. f_equal. lia. }
  split; [done|]. intros Hnn.
  pose proof (serve_nonneg reqs db Hnn pid _ Hrow) as Hge. simpl in Hge. lia.
Qed.

Lemma stock_accounting_witness :
  let reqs := [ mkDeductBody (Some "p1") (Some 60) (Some "o1");
                mkDeductBody (Some "p1") (Some 60) (Some "o2");
                mkDeductBody (Some "p1") (Some 30) (Some "o3");
                mkDeductBody (Some "p1") (Some 30) (Some "o3") ] in
  let sold := taken_total "p1" reqs (serve reqs db_100).2 in
  product (serve reqs db_100).1 !! "p1"
  = Some (with_stock (mkProduct "p1" "Quantum Processor" 100) (100 - sold))
  ∧ (stock_nonneg db_100 → sold ≤ 100).
Proof.
  apply (stock_accounting
           [ mkDeductBody (Some "p1") (Some 60) (Some "o1");
             mkDeductBody (Some "p1") (Some 60) (Some "o2");
             mkDeductBody (Some "p1") (Some 30) (Some "o3");
             mkDeductBody (Some "p1") (Some 30) (Some "o3") ]
           db_100 "p1" (mkProduct "p1" "Quantum Processor" 100)).
  reflexivity.
Defined.

(** ** One decrement for each identifier *)

Lemma commits_logged oid reqs db :
  oid ∈ idempotencyLog db → commits oid reqs (serve reqs db).2 = 0%nat.
Proof.
  revert db. induction reqs as [|req reqs IH]; intros db Hin; [done|].
  rewrite serve_cons. simpl.
  rewrite IH by (by apply (proj1 (deduct_log req db))).
  destruct (deduct_outcome req db) as [| | |pid q oid' p0 -> Hout Hp Hle];
    try (by rewrite andb_false_r).
  simpl. case_bool_decide; [by simplify_eq|done].
Qed.

(** X5. In any sequence of deduction requests, whatever else is served
    in between, at most one request that carries a given identifier is
    answered "Stock deducted", and none is when the identifier was in
    the idempotency log before. *)
Theorem one_commit_per_id (oid : string) (reqs : list DeductBody)
    (db : Db) :
  (commits oid reqs (serve reqs db).2 ≤ 1)%nat
  ∧ (oid ∈ idempotencyLog db → commits oid reqs (serve reqs db).2 = 0%nat).
Proof.
  split; [|apply commits_logged].
  revert db. induction reqs as [|req reqs IH]; intros db; [simpl; lia|].
  rewrite serve_cons. simpl.
  destruct (bool_decide (orderId req = Some oid)
            && is_deducted (deduct req db).2) eqn:Hc.
  - apply andb_prop in Hc as [Hreq Hd]. apply bool_decide_eq_true_1 in Hreq.
    rewrite commits_logged; [lia|]. revert Hreq Hd.
    destruct (deduct_outcome req db) as [| | |pid q oid' p0 -> Hout Hp Hle];
      try done.
    simpl. intros [= ->] _. set_solver.
  - specialize (IH (deduct req db).1). lia.
Qed.

(** ** Independent deductions *)

Lemma committed_commute pid1 p1 q1 oid1 pid2 p2 q2 oid2 db :
  pid1 ≠ pid2 →
  committed pid2 p2 q2 oid2 (committed pid1 p1 q1 oid1 db)
  = committed pid1 p1 q1 oid1 (committed pid2 p2 q2 oid2 db).
Proof.
  intros Hne. unfold committed. simpl. f_equal.
  - by apply insert_insert_ne.
  - by rewrite !(assoc_L (∪)), (comm_L (∪) {[oid2]}).
Qed.

(** The database after a request is the database before, or the one
    with the request's decrement and log entry. *)
Lemma deduct_effect req db :
  (deduct req db).1 = db
  ∨ ∃ pid q oid p,
      req = mkDeductBody (Some pid) (Some q) (Some oid)
      ∧ (deduct req db).1 = committed pid p q oid db.
Proof.
  destruct (deduct_outcome req db) as [| | |pid q oid p Heq _ _ _]; auto.
  right. by exists pid, q, oid, p.
Qed.

(** A commit for another product and another identifier does not change
    what the handler does with a request. *)
Lemma deduct_past_commit pid1 p1 q1 oid1 pid2 q2 oid2 db :
  pid1 ≠ pid2 → oid1 ≠ oid2 →
  let r2 := mkDeductBody (Some pid2) (Some q2) (Some oid2) in
  deduct r2 (committed pid1 p1 q1 oid1 db)
  = (committed pid1 p1 q1 oid1 (deduct r2 db).1, (deduct r2 db).2).
Proof.
  intros Hpid Hoid r2. subst r2. rewrite !deduct_eval.
  destruct (_ || _); simpl; [done|].
  rewrite lookup_insert_ne by done.
  assert (Hlog : oid2 ∈ {[oid1]} ∪ idempotencyLog db
                 ↔ oid2 ∈ idempotencyLog db).
  { rewrite elem_of_union, elem_of_singleton.
    split; [intros [Heq|Hin]|intros Hin]; by auto. }
  destruct (decide (oid2 ∈ idempotencyLog db)) as [Hin|Hout].
  { by rewrite decide_True by by apply Hlog. }
  rewrite decide_False by by rewrite Hlog.
  destruct (product db !! pid2) as [p2|] eqn:Hp2; simpl; [|done].
  destruct (stock p2 <? q2); simpl; [done|].
  by rewrite (committed_commute pid1 p1 q1 oid1 pid2 p2 q2 oid2).
Qed.

(** X6. Two deductions for different products under different
    identifiers do not depend on the order in which they are served:
    each request gets the reply it would get if it were served first, and
    the database is the same in the end. *)
Theorem independent_deductions_commute (pid1 pid2 oid1 oid2 : string)
    (q1 q2 : Z) (db : Db) :
  pid1 ≠ pid2 → oid1 ≠ oid2 →
  let r1 := mkDeductBody (Some pid1) (Some q1) (Some oid1) in
  let r2 := mkDeductBody (Some pid2) (Some q2) (Some oid2) in
  (serve [r1; r2] db).1 = (serve [r2; r1] db).1
  ∧ (serve [r1; r2] db).2 = [(deduct r1 db).2; (deduct r2 db).2]
  ∧ (serve [r2; r1] db).2 = [(deduct r2 db).2; (deduct r1 db).2].
Proof.
  intros Hpid Hoid r1 r2. subst r1 r2. rewrite !serve_cons. simpl.
  destruct
    (deduct_effect (mkDeductBody (Some pid1) (Some q1) (Some oid1)) db)
    as [E1|(pa & qa & oa & p1 & Heq1 & E1)];
  destruct
    (deduct_effect (mkDeductBody (Some pid2) (Some q2) (Some oid2)) db)
    as [E2|(pb & qb & ob & p2 & Heq2 & E2)];
  try injection Heq1 as <- <- <-; try injection Heq2 as <- <- <-;
  rewrite ?E1, ?E2.
  - done.
  - rewrite (deduct_past_commit pid2 p2 q2 oid2 pid1 q1 oid1) by done.
    simpl. by rewrite ?E1, ?E2.
  - rewrite (deduct_past_commit pid1 p1 q1 oid1 pid2 q2 oid2) by done.
    simpl. by rewrite ?E1, ?E2.
  - rewrite (deduct_past_commit pid1 p1 q1 oid1 pid2 q2 oid2) by done.
    rewrite (deduct_past_commit pid2 p2 q2 oid2 pid1 q1 oid1) by done.
    simpl. rewrite ?E1, ?E2. split; [|done]. by apply committed_commute.
Qed.

Lemma independent_deductions_commute_witness :
  let db := mkDb {[ "p1" := mkProduct "p1" "Quantum Processor" 100;
                    "p2" := mkProduct "p2" "Neural Interface" 50 ]} ∅ in
  let r1 := mkDeductBody (Some "p1") (Some 30) (Some "o1") in
  let r2 := mkDeductBody (Some "p2") (Some 60) (Some "o2") in
  (serve [r1; r2] db).1 = (serve [r2; r1] db).1
  ∧ (serve [r1; r2] db).2 = [(deduct r1 db).2; (deduct r2 db).2]
  ∧ (serve [r2; r1] db).2 = [(deduct r2 db).2; (deduct r1 db).2].
Proof.
  intros db.
  apply (independent_deductions_commute "p1" "p2" "o1" "o2" 30 60 db).
  - done.
  - done.
Defined.

(** ** Racing handlers *)

Lemma advance_works_for oid s db :
  works_for oid s → works_for oid (advance s db).2.
Proof.
  destruct s as [req|pid q o|r]; simpl; [| |done].
  - intros Hreq. destruct (productId req), (quantity req); try done.
    destruct (orderId req) as [o|]; [|done].
    destruct (_ || _); [done|]. by destruct (decide _).
  - intros _. by destruct (transaction _ _) as [db' [e|[]]].
Qed.

Lemma advance_effect oid s db :
  works_for oid s →
  (advance s db).1 = db
  ∨ ((oid ∉ idempotencyLog db)
     ∧ ∃ pid p q, product db !! pid = Some p ∧ q ≤ stock p
                  ∧ (advance s db).1 = committed pid p q oid db).
Proof.
  destruct s as [req|pid q o|r]; simpl; [| |by left].
  - intros _. left. destruct (productId req), (quantity req), (orderId req);
      try done.
    destruct (_ || _); [done|]. by destruct (decide _).
  - intros [= ->]. rewrite transaction_cases.
    destruct (product db !! pid) as [p|] eqn:Hp; [|by left].
    destruct (Z.ltb_spec (stock p) q); [by left|].
    destruct (decide (oid ∈ idempotencyLog db)); [by left|].
    right. split; [done|]. by exists pid, p, q.
Qed.

Lemma interleave_logged oid turns pool db :
  oid ∈ idempotencyLog db → Forall (works_for oid) pool →
  (interleave turns pool db).2 = db.
Proof.
  revert pool. induction turns as [|i turns IH]; intros pool Hin Hpool;
    [done|].
  simpl. destruct (pool !! i) as [s|] eqn:Hs; [|by apply IH].
  pose proof (Forall_lookup_1 _ _ _ _ Hpool Hs) as Hw.
  pose proof (advance_works_for oid s db Hw) as Hw'.
  assert (Hsame : (advance s db).1 = db).
  { destruct s as [req|pid q o|r]; [| |done];
      by apply (advance_logged _ _ oid). }
  destruct (advance s db) as [db' s']. simpl in *. subst db'.
  apply IH; [done|]. by apply Forall_insert.
Qed.

(** X7. Handlers that race for one identifier.  However the steps of
    any number of handlers working for the same identifier are
    interleaved, the database in the end is the one before, or the one
    before with a single decrement and the log entry of one of them:
    a second decrement is never committed. *)
Theorem racing_handlers_commit_once (oid : string) (turns : list nat)
    (pool : list Stage) (db : Db) :
  Forall (works_for oid) pool →
  (interleave turns pool db).2 = db
  ∨ ((oid ∉ idempotencyLog db)
     ∧ ∃ pid p q, product db !! pid = Some p ∧ q ≤ stock p
                  ∧ (interleave turns pool db).2 = committed pid p q oid db).
Proof.
  revert pool. induction turns as [|i turns IH]; intros pool Hpool;
    [by left|].
  simpl. destruct (pool !! i) as [s|] eqn:Hs; [|by apply IH].
  pose proof (Forall_lookup_1 _ _ _ _ Hpool Hs) as Hw.
  pose proof (advance_works_for oid s db Hw) as Hw'.
  destruct (advance_effect oid s db Hw)
    as [Hsame|(Hout & pid & p & q & Hp & Hle & Hcommit)];
    destruct (advance s db) as [db' s']; simpl in *; subst db'.
  - apply IH. by apply Forall_insert.
  - right. split; [done|]. exists pid, p, q. split_and!; [done|done|].
    apply (interleave_logged oid); [|by apply Forall_insert].
    simpl. apply elem_of_union_l. by apply elem_of_singleton.
Qed.

Lemma racing_handlers_commit_once_witness :
  let req := mkDeductBody (Some "p1") (Some 1) (Some "o1") in
  let final :=
    (interleave [0; 1; 2; 1; 0; 2]%nat [Arrived req; Arrived req; Arrived req]
       db_100).2 in
  final = db_100
  ∨ (("o1" ∉ idempotencyLog db_100)
     ∧ ∃ pid p q, product db_100 !! pid = Some p ∧ q ≤ stock p
                  ∧ final = committed pid p q "o1" db_100).
Proof.
  apply (racing_handlers_commit_once "o1").
  repeat constructor.
Defined.

(** ** Seeding *)

Lemma seed_rows_keys ids :
  (seed_rows ids).*1 = [ids.1.1.1; ids.1.1.2; ids.1.2; ids.2].
Proof. by destruct ids as [[[i1 i2] i3] i4]. Qed.

(** X8. Seeding inserts the four products, each under its own [id],
    only into an empty [product] table, and leaves the idempotency log
    alone.  Once the table is seeded, seeding again changes nothing,
    also after any deductions: the stock is not reset. *)
Theorem seedProducts_once (ids ids' : string * string * string * string)
    (db : Db) (reqs : list DeductBody) :
  product db = ∅ → NoDup [ids.1.1.1; ids.1.1.2; ids.1.2; ids.2] →
  let db1 := seedProducts ids db in
  size (product db1) = 4%nat
  ∧ keyed_by_id db1
  ∧ stock <$> product db1 !! ids.1.1.1 = Some 100
  ∧ idempotencyLog db1 = idempotencyLog db
  ∧ seedProducts ids' (serve reqs db1).1 = (serve reqs db1).1.
Proof.
  intros Hempty Hids db1.
  assert (Hdb1 : db1 = mkDb (list_to_map (seed_rows ids)) (idempotencyLog db)).
  { unfold db1, seedProducts. rewrite Hempty, map_size_empty.
    rewrite bool_decide_eq_true_2 by done.
    by rewrite bool_decide_eq_true_2 by by rewrite seed_rows_keys. }
  assert (Hsize : size (product db1) = 4%nat).
  { rewrite Hdb1. simpl. rewrite map_size_list_to_map.
    - by destruct ids as [[[i1 i2] i3] i4].
    - by rewrite seed_rows_keys. }
  split_and!.
  - done.
  - rewrite Hdb1. intros k p. simpl. intros Hk%elem_of_list_to_map_2.
    destruct ids as [[[i1 i2] i3] i4]. simpl in Hk.
    rewrite !elem_of_cons, elem_of_nil in Hk.
    destruct Hk as [?|[?|[?|[?|[]]]]]; by simplify_eq.
  - rewrite Hdb1. simpl. destruct ids as [[[i1 i2] i3] i4]. simpl.
    by rewrite lookup_insert_eq.
  - by rewrite Hdb1.
  - unfold seedProducts. rewrite bool_decide_eq_false_2; [done|].
    rewrite <- size_dom.
    rewrite (proj1 (serve_frame reqs db1)), size_dom, Hsize. done.
Qed.

Lemma seedProducts_once_witness :
  let db1 := seedProducts ("a", "b", "c", "d") (mkDb ∅ ∅) in
  let reqs := [mkDeductBody (Some "a") (Some 7) (Some "o1")] in
  size (product db1) = 4%nat
  ∧ keyed_by_id db1
  ∧ stock <$> product db1 !! "a" = Some 100
  ∧ idempotencyLog db1 = ∅
  ∧ seedProducts ("e", "f", "g", "h") (serve reqs db1).1 = (serve reqs db1).1.
Proof.
  apply (seedProducts_once ("a", "b", "c", "d") ("e", "f", "g", "h")
           (mkDb ∅ ∅) [mkDeductBody (Some "a") (Some 7) (Some "o1")]).
  - reflexivity.
  - simpl. apply (bool_decide_unpack _). by vm_compute.
Defined.

End InventoryMore.

(** * Further properties of the order service and of the system *)

Module OrderMore.
Import OrderService.
Import Books.
Import InventoryFacts.
Import OrderFacts.

(** ** What the coordinator learns from the reply *)

Lemma deduct_ok_logged pid q oid db :
  Inventory.status
    (Inventory.deduct (Inventory.mkDeductBody (Some pid) (Some q) (Some oid))
       db).2 = 200 →
  oid ∈ Inventory.idempotencyLog
          (Inventory.deduct
             (Inventory.mkDeductBody (Some pid) (Some q) (Some oid)) db).1.
Proof.
  destruct (deduct_outcome
              (Inventory.mkDeductBody (Some pid) (Some q) (Some oid)) db)
    as [|? ? ? Heq Hin|? ? ? _ _ _|? ? ? ? Heq _ _ _]; simpl; try done.
  - intros _. by simplify_eq.
  - intros _. simplify_eq. apply elem_of_union_l. by apply elem_of_singleton.
Qed.

Lemma deduct_refused_unchanged req db :
  Inventory.status (Inventory.deduct req db).2 = 400 →
  (Inventory.deduct req db).1 = db.
Proof. by destruct (deduct_outcome req db). Qed.

Lemma delay_only_gremlin req db :
  Inventory.delay (Inventory.deduct req db).2 ≠ 0 →
  Inventory.quantity req = Some 13.
Proof.
  destruct (deduct_outcome req db) as [| | |pid q oid p -> _ _ _]; try done.
  simpl. unfold Inventory.gremlin, Inventory.GREMLIN_QUANTITY.
  by destruct (Z.eqb_spec q 13) as [->|].
Qed.

Lemma axios_response timeout took r st data :
  axios_post timeout took r = AxiosResponse st data →
  took < timeout ∧ st = Inventory.status r.
Proof.
  unfold axios_post.
  destruct (Z.leb_spec timeout took); [done|].
  destruct (_ && _); [|by destruct (_ <? _)].
  by intros [= <- _].
Qed.

(** X9. [POST /orders] answers 400 "Missing productId or quantity"
    exactly for a body whose [productId] is missing or empty or whose
    [quantity] is missing or 0.  It then creates no order and does not
    call the inventory service. *)
Theorem post_orders_missing_fields (req : OrderRequest) (env : Env)
    (w : World) :
  ((post_orders req env w).2 = Some missing_fields ↔ ¬ accepted_order req)
  ∧ (¬ accepted_order req → (post_orders req env w).1 = w).
Proof.
  split; [|intros Hn; by rewrite post_orders_not_accepted].
  split; [|intros Hn; by rewrite post_orders_not_accepted].
  intros Hr Hacc.
  destruct (accepted_order_inv _ Hacc) as (pid & q & -> & Hpid & Hq).
  destruct (order (orders w) !! new_id env) as [o|] eqn:Hfresh.
  { rewrite post_orders_taken in Hr by eauto. done. }
  rewrite post_orders_unfold in Hr by done.
  destruct (axios_post _ _ _) as [st data|ecode]; [destruct (st =? 200)|];
    done.
Qed.

(** X10. The reply tells what was stored.  For a complete body and a
    new identifier the coordinator answers 201 with the order stored as
    CONFIRMED when the inventory service answered 200 before the
    deadline, and otherwise 503 with the order stored as FAILED; the
    reason is the timeout's exactly when the reply took the deadline or
    longer, also when that reply was a refusal, and a refusal that
    arrives before the deadline gets the other reason. *)
Theorem reply_matches_status (pid : string) (q : Z) (env : Env)
    (w : World) :
  pid ≠ "" → q ≠ 0 → order (orders w) !! new_id env = None →
  let call :=
    Inventory.deduct
      (Inventory.mkDeductBody (Some pid) (Some q) (Some (new_id env)))
      (inventory w) in
  let took := latency env + Inventory.delay call.2 in
  let result := post_orders (mkOrderRequest (Some pid) (Some q)) env w in
  (Inventory.status call.2 = 200 ∧ took < TIMEOUT
   ∧ result.2
     = Some (mkReply 201
               (OrderBody (mkOrder (new_id env) pid q CONFIRMED (now env))))
   ∧ order (orders result.1) !! new_id env
     = Some (mkOrder (new_id env) pid q CONFIRMED (now env)))
  ∨ (¬ (Inventory.status call.2 = 200 ∧ took < TIMEOUT)
     ∧ ∃ reason,
         result.2
         = Some (mkReply 503 (FailedBody reason (new_id env) FAILED))
         ∧ order (orders result.1) !! new_id env
           = Some (mkOrder (new_id env) pid q FAILED (now env))
         ∧ (reason = "Order processing timed out waiting for inventory"
            ↔ TIMEOUT ≤ took)
         ∧ (took < TIMEOUT →
            Inventory.status call.2 = 400
            ∧ reason = "Order failed due to inventory issue")).
Proof.
  intros Hpid Hq Hfresh call took result.
  destruct (inventory_status
              (Inventory.mkDeductBody (Some pid) (Some q) (Some (new_id env)))
              (inventory w)) as [Hst|Hst]; fold call in Hst.
  - destruct (Z.lt_ge_cases took TIMEOUT) as [Hquick|Hlate].
    + left. unfold result. rewrite post_orders_ok by done. simpl.
      split_and!; try done. apply lookup_insert_eq.
    + right. split; [lia|]. exists timed_out.
      unfold result. rewrite post_orders_timeout by done. simpl.
      split_and!; try done.
      * apply lookup_insert_eq.
      * lia.
  - right. split; [intros [? _]; congruence|].
    destruct (Z.lt_ge_cases took TIMEOUT) as [Hquick|Hlate].
    + exists inventory_issue.
      unfold result. rewrite post_orders_refused by done. simpl.
      split_and!; try done.
      * apply lookup_insert_eq.
      * split; [done|]. lia.
    + exists timed_out.
      unfold result. rewrite post_orders_timeout by done. simpl.
      split_and!; try done.
      * apply lookup_insert_eq.
      * lia.
Qed.

Lemma reply_matches_status_witness :
  let env := mkEnv "o1" 0 2500 in
  let call :=
    Inventory.deduct
      (Inventory.mkDeductBody (Some "p1") (Some 101) (Some "o1"))
      (inventory world_100) in
  let took := latency env + Inventory.delay call.2 in
  let result := post_orders (mkOrderRequest (Some "p1") (Some 101)) env
                  world_100 in
  (Inventory.status call.2 = 200 ∧ took < TIMEOUT
   ∧ result.2
     = Some (mkReply 201 (OrderBody (mkOrder "o1" "p1" 101 CONFIRMED 0)))
   ∧ order (orders result.1) !! "o1"
     = Some (mkOrder "o1" "p1" 101 CONFIRMED 0))
  ∨ (¬ (Inventory.status call.2 = 200 ∧ took < TIMEOUT)
     ∧ ∃ reason,
         result.2 = Some (mkReply 503 (FailedBody reason "o1" FAILED))
         ∧ order (orders result.1) !! "o1"
           = Some (mkOrder "o1" "p1" 101 FAILED 0)
         ∧ (reason = "Order processing timed out waiting for inventory"
            ↔ TIMEOUT ≤ took)
         ∧ (took < TIMEOUT →
            Inventory.status call.2 = 400
            ∧ reason = "Order failed due to inventory issue")).
Proof.
  apply (reply_matches_status "p1" 101 (mkEnv "o1" 0 2500) world_100).
  - done.
  - done.
  - reflexivity.
Defined.

(** X11. A refusal means that nothing was deducted.  When the
    inventory service answers 400 and the answer arrives before the
    deadline, the coordinator stores the order as FAILED and answers 503
    "Order failed due to inventory issue" with the order's identifier,
    and the inventory database is the one from before the order. *)
Theorem business_failure_no_deduction (pid : string) (q : Z) (env : Env)
    (w : World) :
  pid ≠ "" → q ≠ 0 → order (orders w) !! new_id env = None →
  let call :=
    Inventory.deduct
      (Inventory.mkDeductBody (Some pid) (Some q) (Some (new_id env)))
      (inventory w) in
  Inventory.status call.2 = 400 →
  latency env + Inventory.delay call.2 < TIMEOUT →
  let result := post_orders (mkOrderRequest (Some pid) (Some q)) env w in
  result.2
  = Some (mkReply 503
            (FailedBody "Order failed due to inventory issue" (new_id env)
               FAILED))
  ∧ order (orders result.1) !! new_id env
    = Some (mkOrder (new_id env) pid q FAILED (now env))
  ∧ inventory result.1 = inventory w.
Proof.
  intros Hpid Hq Hfresh call Hst Hquick result.
  unfold result. rewrite post_orders_refused by done. simpl.
  split_and!; [done|apply lookup_insert_eq|].
  by apply deduct_refused_unchanged.
Qed.

Lemma business_failure_no_deduction_witness :
  let result := post_orders (mkOrderRequest (Some "p1") (Some 101))
                  (mkEnv "o1" 0 30) world_100 in
  result.2
  = Some (mkReply 503
            (FailedBody "Order failed due to inventory issue" "o1" FAILED))
  ∧ order (orders result.1) !! "o1" = Some (mkOrder "o1" "p1" 101 FAILED 0)
  ∧ inventory result.1 = inventory world_100.
Proof.
  apply (business_failure_no_deduction "p1" 101 (mkEnv "o1" 0 30) world_100).
  - done.
  - done.
  - reflexivity.
  - vm_compute. reflexivity.
  - vm_compute. reflexivity.
Defined.

(** ** Invariants of the two databases *)

Lemma seedProducts_log ids db :
  Inventory.idempotencyLog (Inventory.seedProducts ids db)
  = Inventory.idempotencyLog db.
Proof. unfold Inventory.seedProducts. by repeat case_bool_decide. Qed.

Lemma deduct_log_mono req db :
  Inventory.idempotencyLog db
  ⊆ Inventory.idempotencyLog (Inventory.deduct req db).1.
Proof.
  destruct (deduct_outcome req db); try done. simpl. apply union_subseteq_r.
Qed.

(** What one [POST /orders] does to both databases. *)
Lemma post_orders_effect req env w :
  let w' := (post_orders req env w).1 in
  w' = w
  ∨ ∃ pid q s,
      order (orders w) !! new_id env = None
      ∧ terminal s
      ∧ order (orders w')
        = <[new_id env := mkOrder (new_id env) pid q s (now env)]>
            (order (orders w))
      ∧ inventory w'
        = (Inventory.deduct
             (Inventory.mkDeductBody (Some pid) (Some q) (Some (new_id env)))
             (inventory w)).1
      ∧ (s = CONFIRMED →
         new_id env ∈ Inventory.idempotencyLog (inventory w')).
Proof.
  simpl.
  destruct (decide (accepted_order req)) as [Hacc|Hacc];
    [|left; by rewrite post_orders_not_accepted].
  destruct (accepted_order_inv _ Hacc) as (pid & q & -> & Hpid & Hq).
  destruct (order (orders w) !! new_id env) as [o|] eqn:Hfresh.
  { left. rewrite post_orders_taken; eauto. }
  right. exists pid, q. rewrite post_orders_unfold by done.
  destruct (axios_post _ _ _) as [st data|ecode] eqn:Hanswer;
    [destruct (Z.eqb_spec st 200) as [->|]|].
  - exists CONFIRMED. simpl. split_and!; try done.
    + by left.
    + by rewrite insert_insert_eq.
    + intros _. apply axios_response in Hanswer as [_ Hst].
      by apply deduct_ok_logged.
  - exists FAILED. simpl. split_and!; try done.
    + by right.
    + by rewrite insert_insert_eq.
  - exists FAILED. simpl. split_and!; try done.
    + by right.
    + by rewrite insert_insert_eq.
Qed.

Lemma handle_confirmed_logged r w :
  confirmed_logged w → confirmed_logged (System.handle r w).
Proof.
  intros Hw. destruct r as [|req env|req|ids]; simpl; try done.
  - destruct (post_orders_effect req env w)
      as [->|(pid & q & s & Hfresh & _ & Horders & Hinv & Hlog)]; [done|].
    intros oid o. rewrite Horders, lookup_insert.
    case_decide as Hoid.
    + intros [= <-]. simpl. subst oid. exact Hlog.
    + intros Ho Hc. rewrite Hinv. apply deduct_log_mono. by eapply Hw.
  - intros oid o Ho Hc. simpl in *. apply deduct_log_mono. by eapply Hw.
  - intros oid o Ho Hc. simpl in *. rewrite seedProducts_log. by eapply Hw.
Qed.

(** X12. Every CONFIRMED order is backed by the inventory.  Over any
    sequence of requests to the two services, each order stored as
    CONFIRMED has its identifier in the idempotency log of the inventory
    service, provided this held at the start. *)
Theorem confirmed_orders_logged (rs : list System.Request) (w : World) :
  confirmed_logged w → confirmed_logged (System.run rs w).
Proof.
  revert w. induction rs as [|r rs IH]; intros w Hw; [done|].
  simpl. by apply IH, handle_confirmed_logged.
Qed.

Lemma confirmed_orders_logged_witness :
  confirmed_logged
    (System.run
       [System.PostOrders (mkOrderRequest (Some "p1") (Some 2))
          (mkEnv "o1" 0 30);
        System.PostOrders (mkOrderRequest (Some "p1") (Some 13))
          (mkEnv "o2" 1 30);
        System.PostSeed ("a", "b", "c", "d")] world_100).
Proof.
  apply (confirmed_orders_logged _ world_100).
  intros oid o Ho. simpl in Ho. by rewrite lookup_empty in Ho.
Defined.

Lemma handle_settled r w :
  all_settled w ∧ orders_keyed_by_id w →
  all_settled (System.handle r w) ∧ orders_keyed_by_id (System.handle r w).
Proof.
  intros [Hs Hk]. destruct r as [|req env|req|ids]; simpl; try done.
  destruct (post_orders_effect req env w)
    as [->|(pid & q & s & Hfresh & Hterm & Horders & _ & _)]; [done|].
  split; intros oid o; rewrite Horders, lookup_insert; case_decide.
  - by intros [= <-].
  - apply Hs.
  - by intros [= <-].
  - apply Hk.
Qed.

(** X13. No order is left PENDING.  Over any sequence of requests to the
    two services, every stored order is CONFIRMED or FAILED and is stored
    under its own [id], provided this held at the start; an order is
    PENDING only while its own request is being handled. *)
Theorem no_order_left_pending (rs : list System.Request) (w : World) :
  all_settled w → orders_keyed_by_id w →
  all_settled (System.run rs w) ∧ orders_keyed_by_id (System.run rs w).
Proof.
  intros Hs Hk. assert (H := conj Hs Hk). clear Hs Hk.
  revert w H. induction rs as [|r rs IH]; intros w H; [done|].
  simpl. by apply IH, handle_settled.
Qed.

Lemma no_order_left_pending_witness :
  let w := System.run
             [System.PostOrders (mkOrderRequest (Some "p1") (Some 2))
                (mkEnv "o1" 0 30);
              System.PostOrders (mkOrderRequest (Some "p1") (Some 500))
                (mkEnv "o2" 1 30);
              System.PostOrders (mkOrderRequest (Some "p1") (Some 13))
                (mkEnv "o3" 2 30)] world_100 in
  all_settled w ∧ orders_keyed_by_id w.
Proof.
  apply (no_order_left_pending _ world_100).
  - intros oid o Ho. simpl in Ho. by rewrite lookup_empty in Ho.
  - intros oid o Ho. simpl in Ho. by rewrite lookup_empty in Ho.
Defined.

(** ** The dashboard *)

(** X15. The dashboard never posts a body that the order service
    rejects as incomplete, and neither of its two buttons makes the
    inventory service wait: the order of "Trigger Gremlin" has quantity
    3, not 13.  So with a new identifier and a call that takes less than
    the deadline, no order of the dashboard fails with the timeout
    reason.  While no product is selected nothing is posted. *)
Theorem dashboard_orders (selectedProduct : string) (isGremlin : bool)
    (env : Env) (w : World) :
  (selectedProduct = "" →
   Frontend.placeOrder selectedProduct isGremlin env w = (w, None))
  ∧ (selectedProduct ≠ "" →
     let req := mkOrderRequest (Some selectedProduct)
                  (Some (Frontend.order_quantity isGremlin)) in
     Frontend.placeOrder_body selectedProduct isGremlin = Some req
     ∧ (Frontend.placeOrder selectedProduct isGremlin env w).1
       = (post_orders req env w).1
     ∧ accepted_order req
     ∧ (post_orders req env w).2 ≠ Some missing_fields
     ∧ Inventory.delay
         (Inventory.deduct
            (Inventory.mkDeductBody (Some selectedProduct)
               (Some (Frontend.order_quantity isGremlin))
               (Some (new_id env))) (inventory w)).2 = 0
     ∧ (order (orders w) !! new_id env = None → latency env < TIMEOUT →
        (post_orders req env w).2
        ≠ Some (mkReply 503 (FailedBody timed_out (new_id env) FAILED)))).
Proof.
  split.
  - intros ->. done.
  - intros Hsel req.
    assert (Hq : Frontend.order_quantity isGremlin ≠ 0)
      by by destruct isGremlin.
    assert (Hacc : accepted_order req) by done.
    assert (Hdelay : Inventory.delay
                       (Inventory.deduct
                          (Inventory.mkDeductBody (Some selectedProduct)
                             (Some (Frontend.order_quantity isGremlin))
                             (Some (new_id env))) (inventory w)).2 = 0).
    { destruct (decide (Inventory.delay
                          (Inventory.deduct
                             (Inventory.mkDeductBody (Some selectedProduct)
                                (Some (Frontend.order_quantity isGremlin))
                                (Some (new_id env))) (inventory w)).2 = 0))
        as [|Hne]; [done|].
      apply delay_only_gremlin in Hne. simpl in Hne.
      by destruct isGremlin. }
    assert (Hbody : Frontend.placeOrder_body selectedProduct isGremlin
                    = Some req).
    { unfold Frontend.placeOrder_body.
      by rewrite bool_decide_eq_false_2. }
    split_and!; try done.
    + unfold Frontend.placeOrder. rewrite Hbody.
      by destruct (post_orders req env w).
    + intros Hr.
      destruct (decide (accepted_order req)) as [_|Hn]; [|done].
      destruct (order (orders w) !! new_id env) as [o|] eqn:Hfresh.
      { unfold req in Hr. rewrite post_orders_taken in Hr by eauto. done. }
      unfold req in Hr. rewrite post_orders_unfold in Hr by done.
      destruct (axios_post _ _ _) as [st data|ecode];
        [destruct (st =? 200)|]; done.
    + intros Hfresh Hquick Hr.
      destruct (inventory_status
                  (Inventory.mkDeductBody (Some selectedProduct)
                     (Some (Frontend.order_quantity isGremlin))
                     (Some (new_id env))) (inventory w)) as [Hst|Hst].
      * unfold req in Hr. rewrite post_orders_ok in Hr; try done.
        rewrite Hdelay. lia.
      * unfold req in Hr. rewrite post_orders_refused in Hr; try done.
        rewrite Hdelay. lia.
Qed.

Lemma dashboard_orders_witness :
  let req := mkOrderRequest (Some "p1") (Some (Frontend.order_quantity true))
  in
  Frontend.placeOrder_body "p1" true = Some req
  ∧ (Frontend.placeOrder "p1" true (mkEnv "o1" 0 30) world_100).1
    = (post_orders req (mkEnv "o1" 0 30) world_100).1
  ∧ accepted_order req
  ∧ (post_orders req (mkEnv "o1" 0 30) world_100).2 ≠ Some missing_fields
  ∧ Inventory.delay
      (Inventory.deduct
         (Inventory.mkDeductBody (Some "p1")
            (Some (Frontend.order_quantity true)) (Some "o1"))
         (inventory world_100)).2 = 0
  ∧ (order (orders world_100) !! "o1" = None → 30 < TIMEOUT →
     (post_orders req (mkEnv "o1" 0 30) world_100).2
     ≠ Some (mkReply 503 (FailedBody timed_out "o1" FAILED))).
Proof.
  apply (proj2 (dashboard_orders "p1" true (mkEnv "o1" 0 30) world_100)).
  done.
Defined.

End OrderMore.
